(** * Chat subsystem of the role-play server: routes and WebSocket dispatcher

    A shallow embedding of the chat part of [registerRoutes] (the Express
    routes under [/api/chat] and the WebSocket server mounted on [/ws]),
    followed by the properties of the chat core that the design document
    states about it.

    Conventions of the embedding.
    - A JavaScript string is the list of its UTF-16 code units, so [length]
      is [String.prototype.length].
    - A JavaScript number is modelled when it is an integer-valued Number,
      [NaN] or an infinity; fractional numbers are outside the model.
      Rounding to the 53 bits of a Number and the decimal form that
      JavaScript prints (with an exponent from 1e21 on) are modelled,
      because [parseInt] goes through both.
    - A property of a parsed JSON object is a primitive value ([JsVal]);
      an absent property is [JUndefined].  Arrays and objects as property
      values are outside the model.
    - [JSON.parse] and [JSON.stringify] are not modelled: an inbound frame is
      given by what [JSON.parse] makes of it, an outbound frame by the object
      handed to [JSON.stringify].
    - A handler runs to completion before the next event is handled: the
      interleavings that [await] allows are not modelled. *)

From Stdlib Require Import ZArith NArith List Ascii String Sorting.Sorted.
From Stdlib Require Import DecimalPos DecimalZ.
From stdpp Require Import base option list gmap sorting.

Local Open Scope Z_scope.

(** ** JavaScript strings *)

(** UTF-16 code units. *)
Definition jstring : Type := list N.

(** An ASCII literal as a JavaScript string. *)
Definition lit (s : string) : jstring := N_of_ascii <$> list_ascii_of_string s.

(** [n] copies of the code unit [c] ([String.prototype.repeat] on a string of
    one unit). *)
Definition repeat_unit (c : N) (n : nat) : jstring := replicate n c.

(** WhiteSpace and LineTerminator code units of ECMAScript, the ones
    [String.prototype.trim] and [parseInt] strip. *)
Definition isWhiteSpace (c : N) : bool :=
  (((9 <=? c) && (c <=? 13)) || (c =? 32) || (c =? 160) || (c =? 5760)
   || ((8192 <=? c) && (c <=? 8202)) || (c =? 8232) || (c =? 8233)
   || (c =? 8239) || (c =? 8287) || (c =? 12288) || (c =? 65279))%N.

Fixpoint trimStart (s : jstring) : jstring :=
  match s with
  | c :: s' => if isWhiteSpace c then trimStart s' else s
  | [] => []
  end.

Definition trimEnd (s : jstring) : jstring := rev (trimStart (rev s)).

(** [String.prototype.trim]. *)
Definition trim (s : jstring) : jstring := trimEnd (trimStart s).

(** ** JavaScript values *)

Inductive JsVal : Type :=
  | JUndefined
  | JNull
  | JBool (b : bool)
  | JNum (n : Z)
  | JStr (s : jstring).

(** The result of [parseInt], and what [parseInt(x) || d] hands on: [NaN],
    an integer-valued Number, or an infinity.  [-0] is not told apart from
    [0]: both are falsy, and both print as ["0"]. *)
Inductive JsNum : Type :=
  | NaN
  | Num (z : Z)
  | Infinity (negative : bool).

(** A number literal of the source is a Number. *)
Coercion Num : Z >-> JsNum.

#[global] Instance JsVal_eq_dec : EqDecision JsVal.
Proof. solve_decision. Defined.

#[global] Instance JsNum_eq_dec : EqDecision JsNum.
Proof. solve_decision. Defined.

(** ToBoolean: what [!v], [v || d] and [c ? a : b] test. *)
Definition ToBoolean (v : JsVal) : bool :=
  match v with
  | JUndefined | JNull => false
  | JBool b => b
  | JNum n => negb (n =? 0)
  | JStr s => negb (bool_decide (s = []))
  end.

(** [v || d] on values. *)
Definition js_or (v d : JsVal) : JsVal := if ToBoolean v then v else d.

(** [n || d] where [n] is a [parseInt] result and [d] a number literal:
    [NaN] and [0] are falsy. *)
Definition num_or (n : JsNum) (d : Z) : JsNum :=
  match n with
  | NaN => Num d
  | Num z => if z =? 0 then Num d else Num z
  | Infinity negative => Infinity negative
  end.

(** [!n] on a [parseInt] result. *)
Definition num_falsy (n : JsNum) : bool :=
  match n with
  | NaN => true
  | Num z => z =? 0
  | Infinity _ => false
  end.

(** *** The Number type

    A natural number is a Number value when it has at most 53 significant
    bits and is below 2^1024.  Only integers that are Number values occur as
    the [n] of a [JNum n]: every integer of magnitude up to 2^53, and beyond
    that the multiples of the right power of two. *)

(** 2^53. *)
Definition two_53 : Z := 9007199254740992.

(** 2^1024: what rounds to it or lies beyond is an infinity. *)
Definition two_1024 : Z := Z.shiftl 1 1024.

(** [Number.isSafeInteger(n)]: the magnitude is at most 2^53 - 1. *)
Definition isSafeInteger (n : Z) : bool := Z.abs n <? two_53.

(** The natural number of at most 53 significant bits that is nearest to
    [m]; of two that are equally near, the one with the even significand.
    Here [q] is the significand, [e] the exponent and [r] what is cut
    off. *)
Definition roundNat (m : Z) : Z :=
  if m <? two_53 then m
  else
    let e := Z.log2 m - 52 in
    let q := Z.shiftr m e in
    let r := m - Z.shiftl q e in
    let half := Z.shiftl 1 (e - 1) in
    let q' := if (half <? r) || ((r =? half) && Z.odd q) then q + 1 else q in
    Z.shiftl q' e.

(** The Number value for an integer [x]: how the engine reads an integer
    that a digit string or a literal denotes. *)
Definition NumberOf (x : Z) : JsNum :=
  let m := roundNat (Z.abs x) in
  if two_1024 <=? m then Infinity (x <? 0) else Num (Z.sgn x * m).

(** *** Number to string *)

Fixpoint uint_units (d : Decimal.uint) : jstring :=
  match d with
  | Decimal.Nil => []
  | Decimal.D0 d => 48%N :: uint_units d
  | Decimal.D1 d => 49%N :: uint_units d
  | Decimal.D2 d => 50%N :: uint_units d
  | Decimal.D3 d => 51%N :: uint_units d
  | Decimal.D4 d => 52%N :: uint_units d
  | Decimal.D5 d => 53%N :: uint_units d
  | Decimal.D6 d => 54%N :: uint_units d
  | Decimal.D7 d => 55%N :: uint_units d
  | Decimal.D8 d => 56%N :: uint_units d
  | Decimal.D9 d => 57%N :: uint_units d
  end.

(** The decimal digits of an integer, [-] in front of a negative one. *)
Definition decimal (n : Z) : jstring :=
  match Z.to_int n with
  | Decimal.Pos d => uint_units d
  | Decimal.Neg d => 45%N :: uint_units d
  end.

(** Number::toString prints the integer with the fewest significant digits
    that is still read as the Number [x].  [pick x scale] looks for it among
    the multiples of [scale]: only the two around [x] can do; when both do,
    the nearer one is taken, and of two equally near the even one. *)
Definition pick (x scale : Z) : option Z :=
  let lo := x / scale * scale in
  let hi := lo + scale in
  match bool_decide (NumberOf lo = Num x), bool_decide (NumberOf hi = Num x) with
  | true, true =>
      if x - lo <? hi - x then Some lo
      else if hi - x <? x - lo then Some hi
      else if Z.even (x / scale) then Some lo else Some hi
  | true, false => Some lo
  | false, true => Some hi
  | false, false => None
  end.

(** The scales [10^j], [10^(j-1)], ..., [1] in turn: the first multiple that
    does has the fewest significant digits. *)
Fixpoint shortest_from (x : Z) (j : nat) : Z :=
  match pick x (10 ^ Z.of_nat j) with
  | Some v => v
  | None =>
      match j with
      | O => x
      | S j' => shortest_from x j'
      end
  end.

Definition shortest (x : Z) : Z := shortest_from x (length (decimal x)).

Fixpoint dropZeros (s : jstring) : jstring :=
  match s with
  | c :: s' => if (c =? 48)%N then dropZeros s' else s
  | [] => []
  end.

(** The exponential form of a digit string: [d.ddde+n], or [de+n] when one
    digit is significant. *)
Definition exponential (ds : jstring) : jstring :=
  let e := decimal (Z.of_nat (length ds) - 1) in
  match rev (dropZeros (rev ds)) with
  | [] => []
  | [d] => d :: lit "e+" ++ e
  | d :: more => d :: 46%N :: more ++ lit "e+" ++ e
  end.

(** Number::toString for a positive integer-valued Number: the digits up to
    21 of them, the exponential form from 1e21 on. *)
Definition NumberToString_nat (x : Z) : jstring :=
  let v := shortest x in
  if v <? 1000000000000000000000 then decimal v else exponential (decimal v).

(** Number::toString for an integer-valued Number.  An [n] that is no Number
    value is read as the engine reads the literal [n], as the nearest
    one. *)
Definition NumberToString (n : Z) : jstring :=
  match NumberOf n with
  | Num x =>
      if x =? 0 then lit "0"
      else if x <? 0 then 45%N :: NumberToString_nat (- x)
      else NumberToString_nat x
  | Infinity negative => if negative then lit "-Infinity" else lit "Infinity"
  | NaN => lit "NaN"
  end.

(** ToString on the modelled values. *)
Definition ToString (v : JsVal) : jstring :=
  match v with
  | JUndefined => lit "undefined"
  | JNull => lit "null"
  | JBool true => lit "true"
  | JBool false => lit "false"
  | JNum n => NumberToString n
  | JStr s => s
  end.

(** *** parseInt *)

(** A decimal digit, as a code unit. *)
Definition isDecimalDigit (c : N) : bool := ((48 <=? c) && (c <=? 57))%N.

(** The value of a code unit as a digit: [0-9], [a-z], [A-Z]. *)
Definition digitOf (c : N) : option Z :=
  if isDecimalDigit c then Some (Z.of_N c - 48)
  else if ((97 <=? c) && (c <=? 122))%N then Some (Z.of_N c - 87)
  else if ((65 <=? c) && (c <=? 90))%N then Some (Z.of_N c - 55)
  else None.

(** The longest prefix of [s] made of radix-[R] digits, as digit values. *)
Fixpoint radixDigits (R : Z) (s : jstring) : list Z :=
  match s with
  | c :: s' =>
      match digitOf c with
      | Some d => if d <? R then d :: radixDigits R s' else []
      | None => []
      end
  | [] => []
  end.

(** The integer that a digit sequence denotes in radix [R], most significant
    digit first, continuing from [acc]. *)
Definition mathInt (R : Z) (acc : Z) (ds : list Z) : Z :=
  fold_left (fun a d => a * R + d) ds acc.

(** A leading [-] or [+] and the sign it gives. *)
Definition strip_sign (s : jstring) : Z * jstring :=
  match s with
  | c :: s' =>
      if (c =? 45)%N then (-1, s')
      else if (c =? 43)%N then (1, s')
      else (1, s)
  | [] => (1, [])
  end.

(** A leading [0x] or [0X] and the radix it gives. *)
Definition strip_hex_prefix (s : jstring) : Z * jstring :=
  match s with
  | c0 :: c1 :: s' =>
      if ((c0 =? 48) && ((c1 =? 120) || (c1 =? 88)))%N then (16, s')
      else (10, s)
  | _ => (10, s)
  end.

(** [parseInt(string)] with no radix argument, on a string: skip leading
    white space, read a sign, switch to radix 16 after [0x] or [0X], read the
    longest run of digits; [NaN] when there is none, and otherwise the
    Number value for the integer that was read. *)
Definition parseInt_string (input : jstring) : JsNum :=
  let '(sign, S1) := strip_sign (trimStart input) in
  let '(R, S2) := strip_hex_prefix S1 in
  match radixDigits R S2 with
  | [] => NaN
  | ds => NumberOf (sign * mathInt R 0 ds)
  end.

(** [parseInt(v)]: the argument is first converted with ToString. *)
Definition parseInt (v : JsVal) : JsNum := parseInt_string (ToString v).

(** ** Exceptions and results *)

(** What a [throw] carries, as far as the handlers can tell them apart (they
    cannot: every [catch] here treats all of them alike). *)
Inductive Exn : Type :=
  | TypeError
  | SyntaxError
  | ZodError
  | ValidationError
  | PersistenceError.

(** The completion of a call: a value or a thrown exception. *)
Inductive Outcome (A : Type) : Type :=
  | Ok (a : A)
  | Throw (e : Exn).

Arguments Ok {A} a.
Arguments Throw {A} e.

(** ** Data model *)

(** A character row, as far as the chat code reads it. *)
Record Character : Type := {
  char_userId : Z;
  firstName : jstring;
  middleName : option jstring;
  lastName : jstring;
}.

(** A persisted message row. *)
Record Message : Type := {
  msg_id : Z;
  msg_roomId : Z;
  msg_characterId : Z;
  msg_content : jstring;
  msg_messageType : jstring;
  msg_createdAt : Z;
  msg_archivedAt : option Z;
}.

(** What [storage.createMessage] is handed.  The HTTP route builds it from
    [parseInt] results and whatever truthy [messageType] the body has, so
    the fields are as loosely typed here as they are at run time. *)
Record InsertMessage : Type := {
  ins_roomId : JsNum;
  ins_characterId : JsNum;
  ins_content : jstring;
  ins_messageType : JsVal;
}.

(** The object literal handed to [insertMessageSchema.parse]. *)
Record Candidate : Type := {
  cand_roomId : JsVal;
  cand_characterId : JsVal;
  cand_content : JsVal;
  cand_messageType : JsVal;
}.

(** A row of [storage.getMessagesByRoom]: the message joined with its
    character ([msg.character]). *)
Record MessageWithCharacter : Type := {
  mwc_message : Message;
  mwc_character : option Character;
}.

(** ** Collaborators that are imported by the routes *)

(** The part of [storage] (module [./storage]) the chat code calls. *)
Class Storage (S : Type) : Type := {
  createMessage : InsertMessage -> S -> Outcome (Message * S);
  getMessagesByRoom : JsNum -> JsNum -> JsNum -> S -> Outcome (list MessageWithCharacter);
  getCharacter : JsVal -> S -> Outcome (option Character);
}.

(** [insertMessageSchema] (module [@shared/schema]): its [parse]. *)
Class MessageSchema : Type := {
  insertMessageSchema_parse : Candidate -> Outcome InsertMessage;
}.

(** ** HTTP requests and responses *)

(** [req.body] of [POST /api/chat/messages], seen through the four
    properties the handler destructures. *)
Record Body : Type := {
  body_roomId : JsVal;
  body_characterId : JsVal;
  body_content : JsVal;
  body_messageType : JsVal;
}.

(** The parts of an Express request the chat routes read.  A query
    parameter is [JUndefined] when absent and a string otherwise. *)
Record Request : Type := {
  session_userId : option Z;
  params_roomId : jstring;
  query_roomId : JsVal;
  query_limit : JsVal;
  query_offset : JsVal;
  body : Body;
}.

(** An entry of the export: [{timestamp, character, message, type}]. *)
Record ExportEntry : Type := {
  exp_timestamp : Z;
  exp_character : jstring;
  exp_message : jstring;
  exp_type : jstring;
}.

(** What is handed to [res.json]. *)
Inductive Payload : Type :=
  | PMessage (message : Message)
  | PMessages (messages : list MessageWithCharacter)
  | PExport (exportData : list ExportEntry)
  | PError (message : jstring).

Record Response : Type := {
  status : Z;
  payload : Payload;
}.

(** [res.json(p)]: status 200. *)
Definition res_json (p : Payload) : Response := {| status := 200; payload := p |}.

(** [res.status(code).json({ message })]. *)
Definition res_error (code : Z) (message : string) : Response :=
  {| status := code; payload := PError (lit message) |}.

(** [v.length] for a primitive [v]: the number of code units of a string,
    [undefined] for a boolean or a number, a TypeError for [undefined] and
    [null]. *)
Definition js_length (v : JsVal) : Outcome JsVal :=
  match v with
  | JStr s => Ok (JNum (Z.of_nat (length s)))
  | JBool _ | JNum _ => Ok JUndefined
  | JUndefined | JNull => Throw TypeError
  end.

(** [v < k] and [v > k] for a number literal [k], on a value that is a
    number or [undefined] ([undefined] converts to [NaN], and every
    comparison with [NaN] is false). *)
Definition js_lt (v : JsVal) (k : Z) : bool :=
  match v with
  | JNum n => n <? k
  | _ => false
  end.

Definition js_gt (v : JsVal) (k : Z) : bool :=
  match v with
  | JNum n => k <? n
  | _ => false
  end.

(** [v.trim()]: only a string has the method. *)
Definition js_trim (v : JsVal) : Outcome jstring :=
  match v with
  | JStr s => Ok (trim s)
  | _ => Throw TypeError
  end.

(** The template literal
    [`${firstName}${middleName ? ` ${middleName}` : ''} ${lastName}`]. *)
Definition fullName (c : Character) : jstring :=
  firstName c
  ++ match middleName c with
     | Some m => if ToBoolean (JStr m) then 32%N :: m else []
     | None => []
     end
  ++ 32%N :: lastName c.

(** The object literal of the export:
    [{timestamp: msg.createdAt, character: ..., message: msg.content,
      type: msg.messageType}]. *)
Definition projected (m : Message) (c : Character) : ExportEntry :=
  {| exp_timestamp := msg_createdAt m;
     exp_character := fullName c;
     exp_message := msg_content m;
     exp_type := msg_messageType m |}.

(** The projection of the export: the arrow function given to
    [messages.map].  [msg.character.firstName] throws when the joined
    character is missing. *)
Definition exportEntry (msg : MessageWithCharacter) : Outcome ExportEntry :=
  match mwc_character msg with
  | Some c => Ok (projected (mwc_message msg) c)
  | None => Throw TypeError
  end.

(** [messages.map(f)] for an [f] that may throw: the first exception ends
    the loop. *)
Fixpoint map_throwing {A B : Type} (f : A -> Outcome B) (l : list A) : Outcome (list B) :=
  match l with
  | [] => Ok []
  | x :: l' =>
      match f x with
      | Ok y =>
          match map_throwing f l' with
          | Ok ys => Ok (y :: ys)
          | Throw e => Throw e
          end
      | Throw e => Throw e
      end
  end.

(** ** WebSocket side: data *)

(** A [WebSocket] object, by identity. *)
Definition WebSocket : Type := nat.

Inductive ReadyState : Type :=
  | CONNECTING
  | OPEN
  | CLOSING
  | CLOSED.

#[global] Instance ReadyState_eq_dec : EqDecision ReadyState.
Proof. solve_decision. Defined.

(** A value of the [activeConnections] map.  The fields hold whatever the
    client sent: nothing checks them against the declared [number]. *)
Record ConnectionInfo : Type := {
  conn_userId : JsVal;
  conn_characterId : JsVal;
}.

(** A parsed inbound object, seen through the properties the handler
    reads. *)
Record WsMessage : Type := {
  m_type : JsVal;
  m_userId : JsVal;
  m_characterId : JsVal;
  m_roomId : JsVal;
  m_content : JsVal;
  m_messageType : JsVal;
}.

(** An inbound frame, by what [JSON.parse(data.toString())] makes of it:
    a syntax error, [null], another value that is not an object (every
    property read on it is [undefined]), or an object. *)
Inductive Frame : Type :=
  | Unparseable
  | ParsedNull
  | ParsedPrimitive
  | ParsedObject (message : WsMessage).

(** The [character] object of a broadcast envelope. *)
Record CharacterNames : Type := {
  cn_firstName : jstring;
  cn_middleName : option jstring;
  cn_lastName : jstring;
}.

(** An outbound frame, by the object handed to [JSON.stringify]:
    [{type: 'authenticated', success}], [{type: 'error', message}] and
    [{type: 'new_message', message: {...savedMessage, character}}]. *)
Inductive ServerEvent : Type :=
  | Authenticated (success : bool)
  | ErrorNotice (message : jstring)
  | NewMessage (savedMessage : Message) (character : CharacterNames).

(** What the transport and the clients do to the server. *)
Inductive Event : Type :=
  | Connection (ws : WebSocket)
  | MessageEvent (ws : WebSocket) (data : Frame)
  | Closing (ws : WebSocket)
  | Close (ws : WebSocket).

(** The socket that an event is about. *)
Definition event_socket (e : Event) : WebSocket :=
  match e with
  | Connection ws | MessageEvent ws _ | Closing ws | Close ws => ws
  end.

(** [const limit = parseInt(req.query.limit as string) || 50] and
    [const offset = parseInt(req.query.offset as string) || 0], the two lines
    that both paginated reads start with. *)
Definition req_limit (req : Request) : JsNum := num_or (parseInt (query_limit req)) 50.

Definition req_offset (req : Request) : JsNum := num_or (parseInt (query_offset req)) 0.

(** ** The routes, over any storage and schema *)

Section Routes.
Context {S : Type} `{!Storage S} `{!MessageSchema}.

(** *** Express handlers

    A handler maps the request and the storage state to the response and
    the new storage state. *)

Definition Handler : Type := Request -> S -> Response * S.

(** The [requireAuth] middleware. *)
Definition requireAuth (next : Handler) : Handler :=
  fun req st =>
    match session_userId req with
    | Some userId =>
        if userId =? 0 then (res_error 401 "Unauthorized", st) else next req st
    | None => (res_error 401 "Unauthorized", st)
    end.

(** [try { ... } catch (error) { res.status(500).json({ message }) }]:
    the storage calls of the chat routes either complete or throw without
    writing, so the state of a thrown body is the one it started from. *)
Definition try_500 (message : string) (st : S) (body : Outcome (Response * S)) : Response * S :=
  match body with
  | Ok r => r
  | Throw _ => (res_error 500 message, st)
  end.

(** [GET /api/chat/rooms/:roomId/messages]. *)
Definition get_room_messages : Handler :=
  requireAuth (fun req st =>
    try_500 "Failed to fetch messages" st
      (let roomId := parseInt (JStr (params_roomId req)) in
       let limit := req_limit req in
       let offset := req_offset req in
       match getMessagesByRoom roomId limit offset st with
       | Ok messages => Ok (res_json (PMessages messages), st)
       | Throw e => Throw e
       end)).

(** [GET /api/chat/messages]. *)
Definition get_messages : Handler :=
  requireAuth (fun req st =>
    try_500 "Failed to fetch messages" st
      (let roomId := parseInt (query_roomId req) in
       if num_falsy roomId then Ok (res_error 400 "roomId is required", st)
       else
         let limit := req_limit req in
         let offset := req_offset req in
         match getMessagesByRoom roomId limit offset st with
         | Ok messages => Ok (res_json (PMessages messages), st)
         | Throw e => Throw e
         end)).

(** [POST /api/chat/messages]. *)
Definition post_messages : Handler :=
  requireAuth (fun req st =>
    try_500 "Failed to create message" st
      (let roomId := body_roomId (body req) in
       let characterId := body_characterId (body req) in
       let content := body_content (body req) in
       let messageType := body_messageType (body req) in
       if negb (ToBoolean roomId) || negb (ToBoolean characterId) || negb (ToBoolean content)
       then Ok (res_error 400 "roomId, characterId, and content are required", st)
       else
         match js_length content with
         | Throw e => Throw e
         | Ok len =>
             if js_lt len 1 || js_gt len 5000
             then Ok (res_error 400 "Message content must be 1-5000 characters", st)
             else
               match js_trim content with
               | Throw e => Throw e
               | Ok trimmed =>
                   let messageData :=
                     {| ins_roomId := parseInt roomId;
                        ins_characterId := parseInt characterId;
                        ins_content := trimmed;
                        ins_messageType := js_or messageType (JStr (lit "text")) |} in
                   match createMessage messageData st with
                   | Ok (message, st') => Ok (res_json (PMessage message), st')
                   | Throw e => Throw e
                   end
               end
         end)).

(** [GET /api/chat/rooms/:roomId/export]. *)
Definition get_room_export : Handler :=
  requireAuth (fun req st =>
    try_500 "Failed to export chat" st
      (let roomId := parseInt (JStr (params_roomId req)) in
       match getMessagesByRoom roomId 1000 0 st with
       | Ok messages =>
           match map_throwing exportEntry messages with
           | Ok exportData => Ok (res_json (PExport exportData), st)
           | Throw e => Throw e
           end
       | Throw e => Throw e
       end)).

(** *** The WebSocket server

    Its state: the [activeConnections] map, the [wss.clients] set of the
    [ws] library (in insertion order, each socket with its [readyState]),
    the storage, and the frames sent so far, oldest first. *)

Record World : Type := {
  activeConnections : gmap WebSocket ConnectionInfo;
  clients : list (WebSocket * ReadyState);
  storage : S;
  outbox : list (WebSocket * ServerEvent);
}.

(** The body of an [async] listener: it reads and writes the world and
    completes or throws. *)
Definition M (A : Type) : Type := World -> Outcome A * World.

#[local] Instance M_ret : MRet M := fun A a w => (Ok a, w).

#[local] Instance M_bind : MBind M := fun A B f m w =>
  match m w with
  | (Ok a, w') => f a w'
  | (Throw e, w') => (Throw e, w')
  end.

Definition throw {A : Type} (e : Exn) : M A := fun w => (Throw e, w).

(** [try { body } catch (error) { handler }]: what [body] did before it
    threw stays done. *)
Definition try_catch {A : Type} (body : M A) (handler : Exn -> M A) : M A :=
  fun w =>
    match body w with
    | (Ok a, w') => (Ok a, w')
    | (Throw e, w') => handler e w'
    end.

(** The world after more frames were sent. *)
Definition enqueue (frames : list (WebSocket * ServerEvent)) (w : World) : World :=
  {| activeConnections := activeConnections w;
     clients := clients w;
     storage := storage w;
     outbox := outbox w ++ frames |}.

Definition set_activeConnections (f : gmap WebSocket ConnectionInfo -> gmap WebSocket ConnectionInfo)
    (w : World) : World :=
  {| activeConnections := f (activeConnections w);
     clients := clients w;
     storage := storage w;
     outbox := outbox w |}.

Definition set_clients (f : list (WebSocket * ReadyState) -> list (WebSocket * ReadyState))
    (w : World) : World :=
  {| activeConnections := activeConnections w;
     clients := f (clients w);
     storage := storage w;
     outbox := outbox w |}.

Definition set_storage (st : S) (w : World) : World :=
  {| activeConnections := activeConnections w;
     clients := clients w;
     storage := st;
     outbox := outbox w |}.

(** [ws.send(JSON.stringify(ev))]. *)
Definition send (ws : WebSocket) (ev : ServerEvent) : M unit :=
  fun w => (Ok (), enqueue [(ws, ev)] w).

(** [activeConnections.set(ws, info)]. *)
Definition activeConnections_set (ws : WebSocket) (info : ConnectionInfo) : M unit :=
  fun w => (Ok (), set_activeConnections (insert ws info) w).

(** [activeConnections.get(ws)]. *)
Definition activeConnections_get (ws : WebSocket) : M (option ConnectionInfo) :=
  fun w => (Ok (activeConnections w !! ws), w).

(** [activeConnections.delete(ws)]. *)
Definition activeConnections_delete (ws : WebSocket) : M unit :=
  fun w => (Ok (), set_activeConnections (delete ws) w).

(** [await] of a storage call that writes. *)
Definition storage_write {A : Type} (call : S -> Outcome (A * S)) : M A :=
  fun w =>
    match call (storage w) with
    | Ok (a, st') => (Ok a, set_storage st' w)
    | Throw e => (Throw e, w)
    end.

(** [await] of a storage call that reads. *)
Definition storage_read {A : Type} (call : S -> Outcome A) : M A :=
  fun w => (call (storage w), w).

(** A synchronous call that may throw. *)
Definition call {A : Type} (r : Outcome A) : M A := fun w => (r, w).

(** [wss.clients]. *)
Definition wss_clients : M (list (WebSocket * ReadyState)) :=
  fun w => (Ok (clients w), w).

(** [set.forEach(f)]. *)
Fixpoint forEach {A : Type} (l : list A) (f : A -> M unit) : M unit :=
  match l with
  | [] => mret ()
  | x :: l' => f x ;; forEach l' f
  end.

(** [connectionInfo?.characterId]. *)
Definition optional_characterId (connectionInfo : option ConnectionInfo) : JsVal :=
  match connectionInfo with
  | Some info => conn_characterId info
  | None => JUndefined
  end.

(** The [chat_message] case of the switch. *)
Definition chat_message (ws : WebSocket) (message : WsMessage) : M unit :=
  connectionInfo ← activeConnections_get ws;
  if negb (ToBoolean (optional_characterId connectionInfo))
  then send ws (ErrorNotice (lit "Not authenticated"))
  else
    let characterId := optional_characterId connectionInfo in
    validatedMessage ← call (insertMessageSchema_parse
      {| cand_roomId := m_roomId message;
         cand_characterId := characterId;
         cand_content := m_content message;
         cand_messageType := js_or (m_messageType message) (JStr (lit "message")) |});
    savedMessage ← storage_write (createMessage validatedMessage);
    character ← storage_read (getCharacter characterId);
    match character with
    | None => mret ()
    | Some character =>
        let broadcastMessage :=
          NewMessage savedMessage
            {| cn_firstName := firstName character;
               cn_middleName := middleName character;
               cn_lastName := lastName character |} in
        all ← wss_clients;
        forEach all (fun client =>
          if decide (client.2 = OPEN) then send client.1 broadcastMessage
          else mret ())
    end.

(** The [authenticate] case of the switch. *)
Definition authenticate (ws : WebSocket) (message : WsMessage) : M unit :=
  activeConnections_set ws
    {| conn_userId := m_userId message;
       conn_characterId := m_characterId message |};;
  send ws (Authenticated true).

(** The listener of [ws.on('message', ...)]. *)
Definition on_message (ws : WebSocket) (data : Frame) : M unit :=
  try_catch
    (match data with
     | Unparseable => throw SyntaxError
     | ParsedNull => throw TypeError
     | ParsedPrimitive => mret ()
     | ParsedObject message =>
         if decide (m_type message = JStr (lit "authenticate"))
         then authenticate ws message
         else if decide (m_type message = JStr (lit "chat_message"))
         then chat_message ws message
         else mret ()
     end)
    (fun error => send ws (ErrorNotice (lit "Invalid message format"))).

(** The listener of [ws.on('close', ...)]. *)
Definition on_close (ws : WebSocket) : M unit := activeConnections_delete ws.

(** The listener of [wss.on('connection', ...)]: it logs and registers the
    two listeners above, and touches nothing else. *)
Definition on_connection (ws : WebSocket) : M unit := mret ().

(** What the [ws] library does to [wss.clients] around the listeners:
    a socket is added, open, before ['connection'] is emitted, and deleted
    when it closes; in between it may start closing. *)
Definition clients_add (ws : WebSocket) (cs : list (WebSocket * ReadyState)) :
    list (WebSocket * ReadyState) :=
  if decide (ws ∈ cs.*1) then cs else cs ++ [(ws, OPEN)].

Definition clients_delete (ws : WebSocket) (cs : list (WebSocket * ReadyState)) :
    list (WebSocket * ReadyState) :=
  filter (fun c => c.1 ≠ ws) cs.

Definition clients_closing (ws : WebSocket) (cs : list (WebSocket * ReadyState)) :
    list (WebSocket * ReadyState) :=
  (fun c => if decide (c.1 = ws) then (ws, CLOSING) else c) <$> cs.

(** One event of the server. *)
Definition step (e : Event) (w : World) : World :=
  match e with
  | Connection ws => (on_connection ws (set_clients (clients_add ws) w)).2
  | MessageEvent ws data => (on_message ws data w).2
  | Closing ws => set_clients (clients_closing ws) w
  | Close ws => (on_close ws (set_clients (clients_delete ws) w)).2
  end.

(** A run of events, first event first. *)
Definition run (es : list Event) (w : World) : World :=
  fold_left (fun w e => step e w) es w.

End Routes.

Arguments World S : clear implicits.
Arguments M S A : clear implicits.
Arguments Handler S : clear implicits.

#[global] Existing Instance M_ret.
#[global] Existing Instance M_bind.

(** ** The message store and the schema, from the design document

    [./storage] and [@shared/schema] are imported by the routes; the
    definitions below follow the contract the design document gives them. *)

(** Modelled from the spec: the state behind [storage] (module [./storage]):
    the message log, the next id to assign ("unique, monotonically assigned
    by the store"), the time that a creation is stamped with ("assigned at
    persistence time"), and the characters of the character provider, by
    id. *)
Record Store : Type := {
  rows : list Message;
  nextId : Z;
  clock : Z;
  characters : gmap Z Character;
}.

(** JavaScript's [s.length] as an integer. *)
Definition len (s : jstring) : Z := Z.of_nat (length s).

(** Modelled from the spec: the content rule of a message, "content length
    in [1, 5000] after trimming". *)
Definition valid_content (s : jstring) : bool :=
  (1 <=? len (trim s)) && (len (trim s) <=? 5000).

(** Modelled from the spec: the row of a new message, "assigns an id and
    creation timestamp"; the content of a row is "trimmed of leading/trailing
    whitespace", and a new row is not archived. *)
Definition created_row (st : Store) (roomId characterId : Z) (content messageType : jstring) :
    Message :=
  {| msg_id := nextId st;
     msg_roomId := roomId;
     msg_characterId := characterId;
     msg_content := trim content;
     msg_messageType := messageType;
     msg_createdAt := clock st;
     msg_archivedAt := None |}.

(** Modelled from the spec: the store after it "appends to the room's log";
    the next id is larger ("monotonically assigned"). *)
Definition appended (st : Store) (m : Message) : Store :=
  {| rows := rows st ++ [m];
     nextId := nextId st + 1;
     clock := clock st;
     characters := characters st |}.

(** Modelled from the spec: [storage.createMessage] (module [./storage]).
    "Fails with ValidationError if content is empty or exceeds 5000
    characters after trimming; otherwise assigns an id and creation timestamp
    and appends to the room's log."  The message type defaults to "text".
    The document says nothing of ids that are [NaN] or infinite or of a
    message type that is not a string: they are a persistence failure
    here. *)
Definition Store_createMessage (ins : InsertMessage) (st : Store) : Outcome (Message * Store) :=
  match ins_roomId ins, ins_characterId ins with
  | Num roomId, Num characterId =>
      match
        match ins_messageType ins with
        | JStr t => Some t
        | JUndefined => Some (lit "text")
        | _ => None
        end
      with
      | Some messageType =>
          if valid_content (ins_content ins) then
            let m := created_row st roomId characterId (ins_content ins) messageType in
            Ok (m, appended st m)
          else Throw ValidationError
      | None => Throw PersistenceError
      end
  | _, _ => Throw PersistenceError
  end.

(** Modelled from the spec: newest first, "the store's paginated read must
    return messages in descending id order". *)
Definition newer (a b : Message) : Prop := msg_id b <= msg_id a.

#[global] Instance newer_dec : RelDecision newer.
Proof. intros a b. unfold newer. apply _. Defined.

(** Modelled from the spec: the log of a room, "messages keyed by room",
    newest first. *)
Definition room_log (roomId : Z) (st : Store) : list Message :=
  merge_sort newer (filter (fun m => msg_roomId m = roomId) (rows st)).

(** Modelled from the spec: the join of a message with its character, the
    [msg.character] that the export reads. *)
Definition with_character (st : Store) (m : Message) : MessageWithCharacter :=
  {| mwc_message := m; mwc_character := characters st !! msg_characterId m |}.

(** Modelled from the spec: [storage.getMessagesByRoom] (module
    [./storage]).  "Returns messages newest-first, skipping [offset] and
    returning at most [limit]"; each row comes with its character, which the
    export reads.  The document takes [limit] and [offset] to be non-negative
    integers and [roomId] to be an id: a room, a [limit] or an [offset] that
    is no integer, and a negative [limit] or [offset], are a persistence
    failure here. *)
Definition Store_getMessagesByRoom (roomId limit offset : JsNum) (st : Store) :
    Outcome (list MessageWithCharacter) :=
  match roomId, limit, offset with
  | Num r, Num n, Num k =>
      if (n <? 0) || (k <? 0) then Throw PersistenceError
      else Ok (with_character st <$> take (Z.to_nat n) (drop (Z.to_nat k) (room_log r st)))
  | _, _, _ => Throw PersistenceError
  end.

(** Modelled from the spec: [storage.getCharacter] (module [./storage]), the
    character provider: "[getCharacter(characterId) -> {firstName,
    middleName?, lastName} | not found]".  An argument that is not a number
    finds nothing. *)
Definition Store_getCharacter (characterId : JsVal) (st : Store) : Outcome (option Character) :=
  match characterId with
  | JNum c => Ok (characters st !! c)
  | _ => Ok None
  end.

#[global] Instance Store_Storage : Storage Store := {
  createMessage := Store_createMessage;
  getMessagesByRoom := Store_getMessagesByRoom;
  getCharacter := Store_getCharacter;
}.

(** Modelled from the spec: [insertMessageSchema.parse] (module
    [@shared/schema]).  "Validate the event payload against the Message
    shape (roomId present, content non-empty and at most 5000 chars after
    trim)": the ids are numbers, the content is a string that is kept
    trimmed, the message type is a string and defaults to "text" when
    absent. *)
Definition Schema_parse (c : Candidate) : Outcome InsertMessage :=
  match cand_roomId c, cand_characterId c, cand_content c with
  | JNum roomId, JNum characterId, JStr content =>
      match
        match cand_messageType c with
        | JStr t => Some t
        | JUndefined => Some (lit "text")
        | _ => None
        end
      with
      | Some messageType =>
          if valid_content content then
            Ok {| ins_roomId := Num roomId;
                  ins_characterId := Num characterId;
                  ins_content := trim content;
                  ins_messageType := JStr messageType |}
          else Throw ZodError
      | None => Throw ZodError
      end
  | _, _, _ => Throw ZodError
  end.

#[global] Instance Schema_MessageSchema : MessageSchema := {
  insertMessageSchema_parse := Schema_parse;
}.

(** The world of a freshly started server over a given store. *)
Definition initial_world (st : Store) : World Store :=
  {| activeConnections := ∅; clients := []; storage := st; outbox := [] |}.

(** ** Sample data *)

Definition ann : Character :=
  {| char_userId := 1; firstName := lit "Ann"; middleName := Some (lit "B"); lastName := lit "Lee" |}.

Definition bob : Character :=
  {| char_userId := 2; firstName := lit "Bob"; middleName := None; lastName := lit "Ray" |}.

(** A store with two characters, owned by the users 1 and 2, and no message
    yet. *)
Definition sample_store : Store :=
  {| rows := []; nextId := 1; clock := 1748444400; characters := {[ 1 := ann; 2 := bob ]} |}.

(** [{type: 'authenticate', userId, characterId}]. *)
Definition authenticate_message (userId characterId : JsVal) : WsMessage :=
  {| m_type := JStr (lit "authenticate");
     m_userId := userId;
     m_characterId := characterId;
     m_roomId := JUndefined;
     m_content := JUndefined;
     m_messageType := JUndefined |}.

(** [{type: 'chat_message', roomId, content, characterId, messageType}]. *)
Definition chat_message_message (roomId content characterId messageType : JsVal) : WsMessage :=
  {| m_type := JStr (lit "chat_message");
     m_userId := JUndefined;
     m_characterId := characterId;
     m_roomId := roomId;
     m_content := content;
     m_messageType := messageType |}.

(** Two sockets connected, none authenticated. *)
Definition two_connected : World Store :=
  run [Connection 1%nat; Connection 2%nat] (initial_world sample_store).

(** Two sockets connected, socket 1 authenticated as [characterId]. *)
Definition first_authenticated (characterId : Z) : World Store :=
  step (MessageEvent 1%nat (ParsedObject (authenticate_message (JNum 1) (JNum characterId))))
    two_connected.

(** A [POST /api/chat/messages] of the logged-in user [userId]. *)
Definition post_request (userId : Z) (b : Body) : Request :=
  {| session_userId := Some userId;
     params_roomId := [];
     query_roomId := JUndefined;
     query_limit := JUndefined;
     query_offset := JUndefined;
     body := b |}.

(** A paginated read or an export of room [roomId] by the logged-in user 1,
    with the given [limit] and [offset] query parameters. *)
Definition read_request (roomId : string) (limit offset : JsVal) : Request :=
  {| session_userId := Some 1;
     params_roomId := lit roomId;
     query_roomId := JStr (lit roomId);
     query_limit := limit;
     query_offset := offset;
     body := {| body_roomId := JUndefined; body_characterId := JUndefined;
                body_content := JUndefined; body_messageType := JUndefined |} |}.

(** [{type: 'chat_message', roomId: 5, content: "hello", characterId: 2}]:
    the payload carries a [characterId] of its own and no [messageType]. *)
Definition hello : WsMessage :=
  chat_message_message (JNum 5) (JStr (lit "hello")) (JNum 2) JUndefined.

(** The row that [hello] becomes in [sample_store] for a connection bound to
    [characterId]. *)
Definition hello_row (characterId : Z) : Message :=
  {| msg_id := 1;
     msg_roomId := 5;
     msg_characterId := characterId;
     msg_content := lit "hello";
     msg_messageType := lit "message";
     msg_createdAt := 1748444400;
     msg_archivedAt := None |}.

(** The envelope of [hello_row 1], sent by [ann]. *)
Definition hello_envelope : ServerEvent :=
  NewMessage (hello_row 1)
    {| cn_firstName := lit "Ann"; cn_middleName := Some (lit "B"); cn_lastName := lit "Lee" |}.

(** The body [{roomId: 1, characterId: 2, content}]. *)
Definition post_body (content : jstring) : Body :=
  {| body_roomId := JNum 1;
     body_characterId := JNum 2;
     body_content := JStr content;
     body_messageType := JUndefined |}.

(** A content of 5001 code units: a space and 5000 letters. *)
Definition padded_content : jstring := 32%N :: repeat_unit 97 5000.

(** A content of three spaces. *)
Definition blank_content : jstring := lit "   ".

(** A row of the log, from [characterId] in [roomId]. *)
Definition row (id roomId characterId : Z) (content : string) : Message :=
  {| msg_id := id;
     msg_roomId := roomId;
     msg_characterId := characterId;
     msg_content := lit content;
     msg_messageType := lit "text";
     msg_createdAt := 1748444400 + id;
     msg_archivedAt := None |}.

(** A store with three messages in room 1 and one in room 2. *)
Definition three_messages : Store :=
  {| rows := [row 1 1 1 "one"; row 2 1 2 "two"; row 3 2 1 "elsewhere"; row 4 1 1 "three"];
     nextId := 5;
     clock := 1748444500;
     characters := {[ 1 := ann; 2 := bob ]} |}.


(** ** Further vocabulary for the properties of the dispatcher *)

(** The event is an [authenticate] frame of the socket [ws]. *)
Definition authenticates (ws : WebSocket) (e : Event) : bool :=
  match e with
  | MessageEvent ws' (ParsedObject message) =>
      bool_decide (ws' = ws) && bool_decide (m_type message = JStr (lit "authenticate"))
  | _ => false
  end.

(** The socket a frame is sent to is the right one for the kind of the
    frame: an envelope goes to an open socket of [wss.clients], every other
    frame to the socket [ws] that the server is answering. *)
Definition well_addressed (ws : WebSocket) (cs : list (WebSocket * ReadyState))
    (frame : WebSocket * ServerEvent) : Prop :=
  match frame.2 with
  | NewMessage _ _ => (frame.1, OPEN) ∈ cs
  | _ => frame.1 = ws
  end.

Section Outcomes_of_a_frame.
Context {S : Type} `{!Storage S} `{!MessageSchema}.

(** The record that the [chat_message] case hands to
    [insertMessageSchema.parse] for a connection bound to [info]. *)
Definition candidate (info : ConnectionInfo) (message : WsMessage) : Candidate :=
  {| cand_roomId := m_roomId message;
     cand_characterId := conn_characterId info;
     cand_content := m_content message;
     cand_messageType := js_or (m_messageType message) (JStr (lit "message")) |}.

(** The broadcast envelope of a saved message and its character. *)
Definition envelope (savedMessage : Message) (character : Character) : ServerEvent :=
  NewMessage savedMessage
    {| cn_firstName := firstName character;
       cn_middleName := middleName character;
       cn_lastName := lastName character |}.

(** The ways in which the message listener can handle a frame of the socket
    [ws] in the world [w], each with the world that results.  The listener
    is shown further down to always take one of them. *)
Inductive Handled (w : World S) (ws : WebSocket) : Frame -> World S -> Prop :=
  | Handled_malformed data :
      data = Unparseable \/ data = ParsedNull ->
      Handled w ws data (enqueue [(ws, ErrorNotice (lit "Invalid message format"))] w)
  | Handled_primitive :
      Handled w ws ParsedPrimitive w
  | Handled_other_type message :
      m_type message <> JStr (lit "authenticate") ->
      m_type message <> JStr (lit "chat_message") ->
      Handled w ws (ParsedObject message) w
  | Handled_authenticate message :
      m_type message = JStr (lit "authenticate") ->
      Handled w ws (ParsedObject message)
        (enqueue [(ws, Authenticated true)]
           (set_activeConnections
              (insert ws {| conn_userId := m_userId message;
                            conn_characterId := m_characterId message |}) w))
  | Handled_unauthenticated message :
      m_type message = JStr (lit "chat_message") ->
      ToBoolean (optional_characterId (activeConnections w !! ws)) = false ->
      Handled w ws (ParsedObject message)
        (enqueue [(ws, ErrorNotice (lit "Not authenticated"))] w)
  | Handled_invalid message info e :
      m_type message = JStr (lit "chat_message") ->
      activeConnections w !! ws = Some info ->
      ToBoolean (conn_characterId info) = true ->
      insertMessageSchema_parse (candidate info message) = Throw e ->
      Handled w ws (ParsedObject message)
        (enqueue [(ws, ErrorNotice (lit "Invalid message format"))] w)
  | Handled_not_saved message info validated e :
      m_type message = JStr (lit "chat_message") ->
      activeConnections w !! ws = Some info ->
      ToBoolean (conn_characterId info) = true ->
      insertMessageSchema_parse (candidate info message) = Ok validated ->
      createMessage validated (storage w) = Throw e ->
      Handled w ws (ParsedObject message)
        (enqueue [(ws, ErrorNotice (lit "Invalid message format"))] w)
  | Handled_lookup_failed message info validated saved st' e :
      m_type message = JStr (lit "chat_message") ->
      activeConnections w !! ws = Some info ->
      ToBoolean (conn_characterId info) = true ->
      insertMessageSchema_parse (candidate info message) = Ok validated ->
      createMessage validated (storage w) = Ok (saved, st') ->
      getCharacter (conn_characterId info) st' = Throw e ->
      Handled w ws (ParsedObject message)
        (enqueue [(ws, ErrorNotice (lit "Invalid message format"))] (set_storage st' w))
  | Handled_unknown_character message info validated saved st' :
      m_type message = JStr (lit "chat_message") ->
      activeConnections w !! ws = Some info ->
      ToBoolean (conn_characterId info) = true ->
      insertMessageSchema_parse (candidate info message) = Ok validated ->
      createMessage validated (storage w) = Ok (saved, st') ->
      getCharacter (conn_characterId info) st' = Ok None ->
      Handled w ws (ParsedObject message) (set_storage st' w)
  | Handled_broadcast message info validated saved st' character :
      m_type message = JStr (lit "chat_message") ->
      activeConnections w !! ws = Some info ->
      ToBoolean (conn_characterId info) = true ->
      insertMessageSchema_parse (candidate info message) = Ok validated ->
      createMessage validated (storage w) = Ok (saved, st') ->
      getCharacter (conn_characterId info) st' = Ok (Some character) ->
      Handled w ws (ParsedObject message)
        (enqueue
           ((fun c => (c.1, envelope saved character))
            <$> filter (fun c => c.2 = OPEN) (clients w))
           (set_storage st' w)).

End Outcomes_of_a_frame.

(** ** The account, character and room routes

    The routes of [registerRoutes] that the chat does not need: the role
    update and the invite codes of the administrators, the character update
    of a user, and the creation of the default rooms at start-up. *)

(** A user row, as far as these routes read it. *)
Record User : Type := {
  user_id : Z;
  user_username : jstring;
  user_email : jstring;
  user_role : jstring;
}.

(** An invite code row.  The code is whatever the body of the request
    held. *)
Record InviteCode : Type := {
  ic_code : JsVal;
  ic_isUsed : bool;
}.

(** The object literal handed to [storage.updateCharacter], made of four
    properties of the body as they came. *)
Record CharacterPatch : Type := {
  patch_firstName : JsVal;
  patch_middleName : JsVal;
  patch_lastName : JsVal;
  patch_birthDate : JsVal;
}.

(** The object literal handed to [storage.createChatRoom]. *)
Record InsertChatRoom : Type := {
  new_name : jstring;
  new_description : jstring;
  new_isPublic : bool;
}.

(** A chat room row. *)
Record ChatRoom : Type := {
  room_id : Z;
  room_name : jstring;
  room_description : jstring;
  room_isPublic : bool;
}.

(** The rest of [storage] (module [./storage]), as far as these routes call
    it.  [getCharacterAt] is [storage.getCharacter] again, at the result of a
    [parseInt], which may be [NaN].  A call is a function of the state [S]:
    a failure that goes away when the same call is made again on the same
    data is not expressed. *)
Class AccountStorage (S : Type) : Type := {
  getUser : Z -> S -> Outcome (option User);
  updateUserRole : JsNum -> jstring -> S -> Outcome (option User * S);
  getCharacterAt : JsNum -> S -> Outcome (option Character);
  updateCharacter : JsNum -> CharacterPatch -> S -> Outcome (option Character * S);
  getInviteCode : JsVal -> S -> Outcome (option InviteCode);
  createInviteCode : JsVal -> S -> Outcome (InviteCode * S);
  getChatRoomByName : jstring -> S -> Outcome (option ChatRoom);
  createChatRoom : InsertChatRoom -> S -> Outcome (ChatRoom * S);
}.

(** The parts of a request that these routes read: the session, the [:id]
    of the path, and the properties [role], [code] and the four names of the
    body. *)
Record ApiRequest : Type := {
  api_session_userId : option Z;
  api_params_id : jstring;
  api_role : JsVal;
  api_code : JsVal;
  api_patch : CharacterPatch;
}.

(** What these routes hand to [res.json]: [{ message }],
    [{ message: "Role updated successfully", user }], a character, an invite
    code, the [{ id, username, email, role, characters }] of a login or a
    registration, and [{ message: "Invalid input", errors }]. *)
Inductive ApiPayload : Type :=
  | ApiError (message : jstring)
  | ApiRoleUpdated (user : User)
  | ApiCharacter (character : Character)
  | ApiInviteCode (inviteCode : InviteCode)
  | ApiAccount (user : User) (characters : list Character)
  | ApiInvalidInput.

Record ApiResponse : Type := {
  api_status : Z;
  api_payload : ApiPayload;
}.

Definition api_json (p : ApiPayload) : ApiResponse := {| api_status := 200; api_payload := p |}.

Definition api_error (code : Z) (message : string) : ApiResponse :=
  {| api_status := code; api_payload := ApiError (lit message) |}.

(** ["Hlavní chat"]. *)
Definition main_room_name : jstring := lit "Hlavn" ++ [237%N] ++ lit " chat".

(** ["Hlavní herní místnost pro všechny hráče"]. *)
Definition main_room_description : jstring :=
  lit "Hlavn" ++ [237%N] ++ lit " hern" ++ [237%N] ++ lit " m" ++ [237%N]
  ++ lit "stnost pro v" ++ [353%N] ++ lit "echny hr" ++ [225%N] ++ [269%N] ++ lit "e".

(** ["Testovací chat"]. *)
Definition test_room_name : jstring := lit "Testovac" ++ [237%N] ++ lit " chat".

(** ["Místnost pro testování a experimenty"]. *)
Definition test_room_description : jstring :=
  lit "M" ++ [237%N] ++ lit "stnost pro testov" ++ [225%N] ++ lit "n" ++ [237%N]
  ++ lit " a experimenty".

Section Account_routes.
Context {S : Type} `{!AccountStorage S}.

(** A route of this group, with the middleware in front of it: the response
    and the new storage, or the rejection of the promise of an [async]
    middleware, after which no response is sent. *)
Definition ApiHandler : Type := ApiRequest -> S -> Outcome (ApiResponse * S).

(** [try { ... } catch (error) { res.status(500).json({ message }) }]. *)
Definition api_try_500 (message : string) (st : S) (body : Outcome (ApiResponse * S)) :
    Outcome (ApiResponse * S) :=
  match body with
  | Ok r => Ok r
  | Throw _ => Ok (api_error 500 message, st)
  end.

(** The [requireAuth] middleware in front of a route of this group. *)
Definition api_requireAuth (next : Z -> ApiHandler) : ApiHandler :=
  fun req st =>
    match api_session_userId req with
    | Some userId =>
        if userId =? 0 then Ok (api_error 401 "Unauthorized", st) else next userId req st
    | None => Ok (api_error 401 "Unauthorized", st)
    end.

(** The [requireAdmin] middleware: [await storage.getUser] is not in a
    [try], so that its exception is the rejection of the middleware. *)
Definition requireAdmin (next : User -> ApiHandler) : ApiHandler :=
  fun req st =>
    match api_session_userId req with
    | Some userId =>
        if userId =? 0 then Ok (api_error 401 "Unauthorized", st)
        else
          match getUser userId st with
          | Throw e => Throw e
          | Ok None => Ok (api_error 403 "Admin access required", st)
          | Ok (Some user) =>
              if decide (user_role user = lit "admin") then next user req st
              else Ok (api_error 403 "Admin access required", st)
          end
    | None => Ok (api_error 401 "Unauthorized", st)
    end.

(** [["user", "admin"].includes(role)]. *)
Definition is_role (role : JsVal) : option jstring :=
  match role with
  | JStr r => if decide (r = lit "user") then Some r
              else if decide (r = lit "admin") then Some r
              else None
  | _ => None
  end.

(** [PATCH /api/users/:id/role]. *)
Definition patch_user_role : ApiHandler :=
  requireAdmin (fun _ req st =>
    api_try_500 "Failed to update user role" st
      (match is_role (api_role req) with
       | None => Ok (api_error 400 "Invalid role", st)
       | Some role =>
           match updateUserRole (parseInt (JStr (api_params_id req))) role st with
           | Throw e => Throw e
           | Ok (None, st') => Ok (api_error 404 "User not found", st')
           | Ok (Some user, st') => Ok (api_json (ApiRoleUpdated user), st')
           end
       end)).

(** [PATCH /api/characters/:id]. *)
Definition patch_character : ApiHandler :=
  api_requireAuth (fun userId req st =>
    api_try_500 "Failed to update character" st
      (let characterId := parseInt (JStr (api_params_id req)) in
       match getCharacterAt characterId st with
       | Throw e => Throw e
       | Ok None => Ok (api_error 403 "Access denied", st)
       | Ok (Some character) =>
           if decide (char_userId character = userId) then
             match updateCharacter characterId (api_patch req) st with
             | Throw e => Throw e
             | Ok (None, st') => Ok (api_error 404 "Character not found", st')
             | Ok (Some updatedCharacter, st') => Ok (api_json (ApiCharacter updatedCharacter), st')
             end
           else Ok (api_error 403 "Access denied", st)
       end)).

(** [POST /api/admin/invite-codes]. *)
Definition post_invite_code : ApiHandler :=
  requireAdmin (fun _ req st =>
    api_try_500 "Failed to create invite code" st
      (let code := api_code req in
       match (if negb (ToBoolean code) then Ok true
              else match js_length code with
                   | Ok l => Ok (js_lt l 6)
                   | Throw e => Throw e
                   end)
       with
       | Throw e => Throw e
       | Ok true =>
           Ok (api_error 400 "Invite code must be at least 6 characters long", st)
       | Ok false =>
           match getInviteCode code st with
           | Throw e => Throw e
           | Ok (Some _) => Ok (api_error 400 "Invite code already exists", st)
           | Ok None =>
               match createInviteCode code st with
               | Throw e => Throw e
               | Ok (inviteCode, st') => Ok (api_json (ApiInviteCode inviteCode), st')
               end
           end
       end)).

(** One block of the start-up function: look the room up by name, create it
    when it is absent.  The two blocks of the source differ in the name and
    the description only. *)
Definition ensure_room (name description : jstring) (st : S) : Outcome S :=
  match getChatRoomByName name st with
  | Throw e => Throw e
  | Ok (Some _) => Ok st
  | Ok None =>
      match createChatRoom {| new_name := name;
                              new_description := description;
                              new_isPublic := true |} st with
      | Throw e => Throw e
      | Ok (_, st') => Ok st'
      end
  end.

(** The start-up function that creates the default rooms: both blocks in one
    [try], whose [catch] only logs, so that what was created before an
    exception stays. *)
Definition initialize_rooms (st : S) : S :=
  match ensure_room main_room_name main_room_description st with
  | Throw _ => st
  | Ok st1 =>
      match ensure_room test_room_name test_room_description st1 with
      | Throw _ => st1
      | Ok st2 => st2
      end
  end.

End Account_routes.

Arguments ApiHandler S : clear implicits.

(** *** A storage in memory, for the examples *)

(** The tables, and a switch that makes every write to the invite codes
    fail, to exercise the error paths. *)
Record Accounts : Type := {
  acc_users : gmap Z User;
  acc_characters : gmap Z Character;
  acc_codes : list InviteCode;
  acc_rooms : list ChatRoom;
  acc_codes_locked : bool;
}.

Definition Accounts_updateUserRole (id : JsNum) (role : jstring) (st : Accounts) :
    Outcome (option User * Accounts) :=
  match id with
  | Num id =>
      match acc_users st !! id with
      | Some user =>
          let user' := {| user_id := user_id user;
                          user_username := user_username user;
                          user_email := user_email user;
                          user_role := role |} in
          Ok (Some user',
              {| acc_users := <[id := user']> (acc_users st);
                 acc_characters := acc_characters st;
                 acc_codes := acc_codes st;
                 acc_rooms := acc_rooms st;
                 acc_codes_locked := acc_codes_locked st |})
      | None => Ok (None, st)
      end
  | _ => Ok (None, st)
  end.

Definition Accounts_getCharacterAt (id : JsNum) (st : Accounts) : Outcome (option Character) :=
  match id with
  | Num id => Ok (acc_characters st !! id)
  | _ => Ok None
  end.

(** A name of the patch replaces the name of the row when it is a
    string. *)
Definition patched (old : jstring) (new : JsVal) : jstring :=
  match new with
  | JStr s => s
  | _ => old
  end.

Definition Accounts_updateCharacter (id : JsNum) (patch : CharacterPatch) (st : Accounts) :
    Outcome (option Character * Accounts) :=
  match id with
  | Num id =>
      match acc_characters st !! id with
      | Some c =>
          let c' := {| char_userId := char_userId c;
                       firstName := patched (firstName c) (patch_firstName patch);
                       middleName := match patch_middleName patch with
                                     | JStr s => Some s
                                     | _ => middleName c
                                     end;
                       lastName := patched (lastName c) (patch_lastName patch) |} in
          Ok (Some c',
              {| acc_users := acc_users st;
                 acc_characters := <[id := c']> (acc_characters st);
                 acc_codes := acc_codes st;
                 acc_rooms := acc_rooms st;
                 acc_codes_locked := acc_codes_locked st |})
      | None => Ok (None, st)
      end
  | _ => Ok (None, st)
  end.

Definition Accounts_getInviteCode (code : JsVal) (st : Accounts) : Outcome (option InviteCode) :=
  Ok (List.find (fun ic => bool_decide (ic_code ic = code)) (acc_codes st)).

Definition Accounts_createInviteCode (code : JsVal) (st : Accounts) :
    Outcome (InviteCode * Accounts) :=
  let ic := {| ic_code := code; ic_isUsed := false |} in
  if acc_codes_locked st then Throw PersistenceError else
  Ok (ic, {| acc_users := acc_users st;
             acc_characters := acc_characters st;
             acc_codes := acc_codes st ++ [ic];
             acc_rooms := acc_rooms st;
                 acc_codes_locked := acc_codes_locked st |}).

Definition Accounts_getChatRoomByName (name : jstring) (st : Accounts) :
    Outcome (option ChatRoom) :=
  Ok (List.find (fun r => bool_decide (room_name r = name)) (acc_rooms st)).

Definition Accounts_createChatRoom (ins : InsertChatRoom) (st : Accounts) :
    Outcome (ChatRoom * Accounts) :=
  let r := {| room_id := Z.of_nat (length (acc_rooms st)) + 1;
              room_name := new_name ins;
              room_description := new_description ins;
              room_isPublic := new_isPublic ins |} in
  Ok (r, {| acc_users := acc_users st;
            acc_characters := acc_characters st;
            acc_codes := acc_codes st;
            acc_rooms := acc_rooms st ++ [r];
            acc_codes_locked := acc_codes_locked st |}).

#[global] Instance Accounts_AccountStorage : AccountStorage Accounts := {
  getUser := fun userId st => Ok (acc_users st !! userId);
  updateUserRole := Accounts_updateUserRole;
  getCharacterAt := Accounts_getCharacterAt;
  updateCharacter := Accounts_updateCharacter;
  getInviteCode := Accounts_getInviteCode;
  createInviteCode := Accounts_createInviteCode;
  getChatRoomByName := Accounts_getChatRoomByName;
  createChatRoom := Accounts_createChatRoom;
}.

(** An administrator (user 1), a user (user 2), their characters [ann] and
    [bob], one invite code, no room. *)
Definition sample_accounts : Accounts :=
  {| acc_users := {[ 1 := {| user_id := 1; user_username := lit "admin";
                             user_email := lit "admin@rpg-realm.cz"; user_role := lit "admin" |};
                     2 := {| user_id := 2; user_username := lit "jan";
                             user_email := lit "user@rpg-realm.cz"; user_role := lit "user" |} ]};
     acc_characters := {[ 1 := ann; 2 := bob ]};
     acc_codes := [{| ic_code := JStr (lit "WELCOME2024"); ic_isUsed := false |}];
     acc_rooms := [];
     acc_codes_locked := false |}.

(** A request of the logged-in user [userId] on the path id [id]. *)
Definition api_request (userId : Z) (id : string) (role code : JsVal) : ApiRequest :=
  {| api_session_userId := Some userId;
     api_params_id := lit id;
     api_role := role;
     api_code := code;
     api_patch := {| patch_firstName := JStr (lit "Eve");
                     patch_middleName := JUndefined;
                     patch_lastName := JUndefined;
                     patch_birthDate := JUndefined |} |}.

(** ** The registration form of the client

    The [Registration] component: its state (the step, the form data), the
    three handlers, and what the user can do with what is on screen. *)

(** The [formData] state. *)
Record FormData : Type := {
  fd_username : jstring;
  fd_email : jstring;
  fd_password : jstring;
  fd_passwordConfirm : jstring;
  fd_inviteCode : jstring;
  fd_firstName : jstring;
  fd_middleName : jstring;
  fd_lastName : jstring;
  fd_birthDate : jstring;
}.

(** The names that [handleInputChange] is called with. *)
Inductive Field : Type :=
  | Username
  | Email
  | Password
  | PasswordConfirm
  | InviteCodeField
  | FirstName
  | MiddleName
  | LastName
  | BirthDate.

(** [{ ...prev, [field]: value }]. *)
Definition set_field (field : Field) (value : jstring) (prev : FormData) : FormData :=
  {| fd_username := if field is Username then value else fd_username prev;
     fd_email := if field is Email then value else fd_email prev;
     fd_password := if field is Password then value else fd_password prev;
     fd_passwordConfirm := if field is PasswordConfirm then value else fd_passwordConfirm prev;
     fd_inviteCode := if field is InviteCodeField then value else fd_inviteCode prev;
     fd_firstName := if field is FirstName then value else fd_firstName prev;
     fd_middleName := if field is MiddleName then value else fd_middleName prev;
     fd_lastName := if field is LastName then value else fd_lastName prev;
     fd_birthDate := if field is BirthDate then value else fd_birthDate prev |}.

(** The argument of [toast]: title, description, and whether the variant is
    ["destructive"]. *)
Record Toast : Type := {
  toast_title : jstring;
  toast_description : JsVal;
  toast_destructive : bool;
}.

(** The component: its two states, the toasts it raised and the form data it
    called [register] with, oldest first. *)
Record Registration : Type := {
  reg_step : Z;
  reg_formData : FormData;
  reg_toasts : list Toast;
  reg_registered : list FormData;
}.

(** [useState(1)] and [useState({ username: "", ... })]. *)
Definition Registration_initial : Registration :=
  {| reg_step := 1;
     reg_formData := {| fd_username := []; fd_email := []; fd_password := [];
                        fd_passwordConfirm := []; fd_inviteCode := []; fd_firstName := [];
                        fd_middleName := []; fd_lastName := []; fd_birthDate := [] |};
     reg_toasts := [];
     reg_registered := [] |}.

Definition setStep (n : Z) (s : Registration) : Registration :=
  {| reg_step := n; reg_formData := reg_formData s;
     reg_toasts := reg_toasts s; reg_registered := reg_registered s |}.

(** [toast({ title: "Chyba", description, variant: "destructive" })]. *)
Definition toast_error (title : jstring) (description : JsVal) (s : Registration) : Registration :=
  {| reg_step := reg_step s; reg_formData := reg_formData s;
     reg_toasts := reg_toasts s ++ [{| toast_title := title;
                                       toast_description := description;
                                       toast_destructive := true |}];
     reg_registered := reg_registered s |}.

(** [toast({ title, description })]. *)
Definition toast_plain (title : jstring) (description : JsVal) (s : Registration) : Registration :=
  {| reg_step := reg_step s; reg_formData := reg_formData s;
     reg_toasts := reg_toasts s ++ [{| toast_title := title;
                                       toast_description := description;
                                       toast_destructive := false |}];
     reg_registered := reg_registered s |}.

(** [handleInputChange]. *)
Definition handleInputChange (field : Field) (value : jstring) (s : Registration) : Registration :=
  {| reg_step := reg_step s; reg_formData := set_field field value (reg_formData s);
     reg_toasts := reg_toasts s; reg_registered := reg_registered s |}.

(** [!s] on a string. *)
Definition is_empty (s : jstring) : bool := bool_decide (s = []).

(** [validateStep1]: the value it returns and the toast it raises. *)
Definition validateStep1 (s : Registration) : bool * Registration :=
  let d := reg_formData s in
  if is_empty (fd_username d) || is_empty (fd_email d) || is_empty (fd_password d)
     || is_empty (fd_passwordConfirm d) || is_empty (fd_inviteCode d)
  then (false, toast_error (lit "Chyba")
                 (JStr (lit "Vypl" ++ [328%N] ++ lit "te v" ++ [353%N] ++ lit "echna pole")) s)
  else if negb (bool_decide (fd_password d = fd_passwordConfirm d))
  then (false, toast_error (lit "Chyba") (JStr (lit "Hesla se neshoduj" ++ [237%N])) s)
  else if len (fd_password d) <? 6
  then (false, toast_error (lit "Chyba")
                 (JStr (lit "Heslo mus" ++ [237%N] ++ lit " m" ++ [237%N] ++ lit "t alespo"
                        ++ [328%N] ++ lit " 6 znak" ++ [367%N])) s)
  else (true, s).

(** [handleStep1Submit]. *)
Definition handleStep1Submit (s : Registration) : Registration :=
  let '(valid, s') := validateStep1 s in
  if valid then setStep 2 s' else s'.

(** How the promise of [register] (from [useAuth]) settles: it resolves, or
    rejects with an error whose [message] is given. *)
Inductive Settled : Type :=
  | Resolved
  | Rejected (message : JsVal).

(** [handleRegistration], for a given settlement of [register]. *)
Definition handleRegistration (settled : Settled) (s : Registration) : Registration :=
  let d := reg_formData s in
  if is_empty (fd_firstName d) || is_empty (fd_lastName d) || is_empty (fd_birthDate d)
  then toast_error (lit "Chyba")
         (JStr (lit "Vypl" ++ [328%N] ++ lit "te v" ++ [353%N] ++ lit "echna povinn"
                ++ [225%N] ++ lit " pole")) s
  else
    let called := {| reg_step := reg_step s; reg_formData := d;
                     reg_toasts := reg_toasts s;
                     reg_registered := reg_registered s ++ [d] |} in
    match settled with
    | Resolved =>
        toast_plain ([218%N] ++ lit "sp" ++ [283%N] ++ lit "ch")
          (JStr (lit "Registrace byla " ++ [250%N] ++ lit "sp" ++ [283%N] ++ [353%N]
                 ++ lit "n" ++ [283%N] ++ lit " dokon" ++ [269%N] ++ lit "ena!")) called
    | Rejected message =>
        toast_error (lit "Chyba registrace")
          (js_or message (JStr (lit "Registrace selhala"))) called
    end.

(** What the user does.  The inputs and buttons of a step exist only while
    that step is on screen. *)
Inductive UiEvent : Type :=
  | Change (field : Field) (value : jstring)
  | SubmitStep1
  | Back
  | SubmitRegistration (settled : Settled).

(** The fields whose inputs are rendered by [step === 1]. *)
Definition on_step1 (field : Field) : bool :=
  match field with
  | Username | Email | Password | PasswordConfirm | InviteCodeField => true
  | _ => false
  end.

(** One event on the component: the handler that the JSX attaches to the
    element, when the element is rendered. *)
Definition ui_step (e : UiEvent) (s : Registration) : Registration :=
  if reg_step s =? 1 then
    match e with
    | Change field value => if on_step1 field then handleInputChange field value s else s
    | SubmitStep1 => handleStep1Submit s
    | _ => s
    end
  else if reg_step s =? 2 then
    match e with
    | Change field value => if on_step1 field then s else handleInputChange field value s
    | Back => setStep 1 s
    | SubmitRegistration settled => handleRegistration settled s
    | _ => s
    end
  else s.

Definition ui_run (es : list UiEvent) (s : Registration) : Registration :=
  fold_left (fun s e => ui_step e s) es s.

(** The account part of a form passes [validateStep1]. *)
Definition account_valid (d : FormData) : Prop :=
  fd_username d <> [] /\ fd_email d <> [] /\ fd_password d <> []
  /\ fd_passwordConfirm d <> [] /\ fd_inviteCode d <> []
  /\ fd_password d = fd_passwordConfirm d
  /\ 6 <= len (fd_password d).

(** The character part of a form has its three required fields. *)
Definition character_valid (d : FormData) : Prop :=
  fd_firstName d <> [] /\ fd_lastName d <> [] /\ fd_birthDate d <> [].

(** ** Registration and login *)

(** What [registrationSchema.parse] returns. *)
Record RegistrationData : Type := {
  rd_username : jstring;
  rd_email : jstring;
  rd_password : jstring;
  rd_inviteCode : jstring;
  rd_firstName : jstring;
  rd_middleName : option jstring;
  rd_lastName : jstring;
  rd_birthDate : jstring;
}.

(** What [loginSchema.parse] returns. *)
Record LoginData : Type := {
  ld_username : jstring;
  ld_password : jstring;
}.

(** The object literal handed to [storage.createUser]. *)
Record NewUser : Type := {
  nu_username : jstring;
  nu_email : jstring;
  nu_password : jstring;
  nu_role : jstring;
}.

(** The object literal handed to [storage.createCharacter]. *)
Record NewCharacter : Type := {
  nc_userId : Z;
  nc_firstName : jstring;
  nc_middleName : option jstring;
  nc_lastName : jstring;
  nc_birthDate : jstring;
}.

(** The part of [storage] (module [./storage]) behind the two routes. *)
Class AuthStorage (S : Type) : Type := {
  getUserByUsername : jstring -> S -> Outcome (option User);
  getUserByEmail : jstring -> S -> Outcome (option User);
  hashPassword : jstring -> S -> Outcome jstring;
  createUser : NewUser -> S -> Outcome (User * S);
  useInviteCode : jstring -> Z -> S -> Outcome S;
  createCharacter : NewCharacter -> S -> Outcome (Character * S);
  validateUser : jstring -> jstring -> S -> Outcome (option User);
  getCharactersByUserId : Z -> S -> Outcome (list Character);
}.

(** [registrationSchema] and [loginSchema] (module [@shared/schema]): their
    [parse], on a request body of type [B]. *)
Class AuthSchemas (B : Type) : Type := {
  registrationSchema_parse : B -> Outcome RegistrationData;
  loginSchema_parse : B -> Outcome LoginData;
}.

Section Auth_routes.
Context {S B : Type} `{!AccountStorage S} `{!AuthStorage S} `{!AuthSchemas B}.

(** What a route of this group works on: the storage and
    [req.session.userId]. *)
Record Server : Type := {
  srv_storage : S;
  srv_session : option Z;
}.

(** The body of an [async] route: it reads and writes the server and
    completes or throws; what it wrote before it threw stays written. *)
Definition Act (A : Type) : Type := Server -> Outcome A * Server.

#[local] Instance Act_ret : MRet Act := fun A a srv => (Ok a, srv).

#[local] Instance Act_bind : MBind Act := fun A B f m srv =>
  match m srv with
  | (Ok a, srv') => f a srv'
  | (Throw e, srv') => (Throw e, srv')
  end.

(** [await] of a storage call that reads. *)
Definition reads {A : Type} (call : S -> Outcome A) : Act A :=
  fun srv => (call (srv_storage srv), srv).

(** [await] of a storage call that writes. *)
Definition writes {A : Type} (call : S -> Outcome (A * S)) : Act A :=
  fun srv =>
    match call (srv_storage srv) with
    | Ok (a, st') => (Ok a, {| srv_storage := st'; srv_session := srv_session srv |})
    | Throw e => (Throw e, srv)
    end.

(** [req.session.userId = id]. *)
Definition set_session (id : Z) : Act unit :=
  fun srv => (Ok (), {| srv_storage := srv_storage srv; srv_session := Some id |}).

(** A synchronous call that may throw. *)
Definition parses {A : Type} (r : Outcome A) : Act A := fun srv => (r, srv).

(** The [catch] of both routes: a [ZodError] is answered with 400 "Invalid
    input", anything else with 500 and the given message. *)
Definition auth_catch (message : string) (body : Act ApiResponse) : Server -> ApiResponse * Server :=
  fun srv =>
    match body srv with
    | (Ok r, srv') => (r, srv')
    | (Throw ZodError, srv') => ({| api_status := 400; api_payload := ApiInvalidInput |}, srv')
    | (Throw _, srv') => (api_error 500 message, srv')
    end.

(** [POST /api/auth/login]. *)
Definition post_login (body : B) : Server -> ApiResponse * Server :=
  auth_catch "Login failed"
    (data ← parses (loginSchema_parse body);
     user ← reads (validateUser (ld_username data) (ld_password data));
     match user with
     | None => mret (api_error 401 "Invalid credentials")
     | Some user =>
         set_session (user_id user);;
         characters ← reads (getCharactersByUserId (user_id user));
         mret (api_json (ApiAccount user characters))
     end).

(** [POST /api/auth/register]. *)
Definition post_register (body : B) : Server -> ApiResponse * Server :=
  auth_catch "Registration failed"
    (data ← parses (registrationSchema_parse body);
     existingUser ← reads (getUserByUsername (rd_username data));
     if existingUser is Some _ then mret (api_error 400 "Username already exists")
     else
       existingEmail ← reads (getUserByEmail (rd_email data));
       if existingEmail is Some _ then mret (api_error 400 "Email already exists")
       else
         inviteCode ← reads (getInviteCode (JStr (rd_inviteCode data)));
         if match inviteCode with
            | None => true
            | Some ic => ic_isUsed ic
            end
         then mret (api_error 400 "Invalid or already used invite code")
         else
           hashedPassword ← reads (hashPassword (rd_password data));
           user ← writes (createUser {| nu_username := rd_username data;
                                        nu_email := rd_email data;
                                        nu_password := hashedPassword;
                                        nu_role := lit "user" |});
           writes (fun st => match useInviteCode (rd_inviteCode data) (user_id user) st with
                             | Ok st' => Ok ((), st')
                             | Throw e => Throw e
                             end);;
           character ← writes (createCharacter {| nc_userId := user_id user;
                                                  nc_firstName := rd_firstName data;
                                                  nc_middleName := rd_middleName data;
                                                  nc_lastName := rd_lastName data;
                                                  nc_birthDate := rd_birthDate data |});
           set_session (user_id user);;
           mret (api_json (ApiAccount user [character]))).

End Auth_routes.

Arguments Server S : clear implicits.
Arguments Act S A : clear implicits.

#[global] Existing Instance Act_ret.
#[global] Existing Instance Act_bind.

(** ** More sample data *)

(** A [POST /api/chat/messages] with no session. *)
Definition anonymous_request : Request :=
  {| session_userId := None;
     params_roomId := lit "1";
     query_roomId := JStr (lit "1");
     query_limit := JUndefined;
     query_offset := JUndefined;
     body := post_body (lit "hello") |}.

(** The body [{roomId: 0, characterId: 2, content: 7}]. *)
Definition odd_body : Body :=
  {| body_roomId := JNum 0;
     body_characterId := JNum 2;
     body_content := JNum 7;
     body_messageType := JUndefined |}.

(** The body [{roomId: 1, characterId: 2, content: 7}]. *)
Definition numeric_content_body : Body :=
  {| body_roomId := JNum 1;
     body_characterId := JNum 2;
     body_content := JNum 7;
     body_messageType := JUndefined |}.

(** [{type: 'ping'}]. *)
Definition ping : WsMessage :=
  {| m_type := JStr (lit "ping");
     m_userId := JUndefined;
     m_characterId := JUndefined;
     m_roomId := JUndefined;
     m_content := JUndefined;
     m_messageType := JUndefined |}.

(** [{type: 'chat_message', roomId: 5, content: "   "}]. *)
Definition blank_chat : WsMessage :=
  chat_message_message (JNum 5) (JStr blank_content) JUndefined JUndefined.

(** User 2 after a promotion, and the accounts then. *)
Definition jan_admin : User :=
  {| user_id := 2; user_username := lit "jan";
     user_email := lit "user@rpg-realm.cz"; user_role := lit "admin" |}.

Definition promoted_accounts : Accounts :=
  {| acc_users := <[2 := jan_admin]> (acc_users sample_accounts);
     acc_characters := acc_characters sample_accounts;
     acc_codes := acc_codes sample_accounts;
     acc_rooms := acc_rooms sample_accounts;
     acc_codes_locked := acc_codes_locked sample_accounts |}.

(** The accounts with the invite codes locked. *)
Definition locked_accounts : Accounts :=
  {| acc_users := acc_users sample_accounts;
     acc_characters := acc_characters sample_accounts;
     acc_codes := acc_codes sample_accounts;
     acc_rooms := acc_rooms sample_accounts;
     acc_codes_locked := true |}.

(** The users of the table, in the order of their ids. *)
Definition users_of (st : Accounts) : list User := (map_to_list (acc_users st)).*2.

Definition Accounts_createUser (nu : NewUser) (st : Accounts) : Outcome (User * Accounts) :=
  let user := {| user_id := Z.of_nat (size (acc_users st)) + 1;
                 user_username := nu_username nu;
                 user_email := nu_email nu;
                 user_role := nu_role nu |} in
  Ok (user, {| acc_users := <[user_id user := user]> (acc_users st);
               acc_characters := acc_characters st;
               acc_codes := acc_codes st;
               acc_rooms := acc_rooms st;
               acc_codes_locked := acc_codes_locked st |}).

Definition Accounts_useInviteCode (code : jstring) (userId : Z) (st : Accounts) : Outcome Accounts :=
  if acc_codes_locked st then Throw PersistenceError
  else Ok {| acc_users := acc_users st;
             acc_characters := acc_characters st;
             acc_codes := (fun ic => if decide (ic_code ic = JStr code)
                                     then {| ic_code := ic_code ic; ic_isUsed := true |}
                                     else ic) <$> acc_codes st;
             acc_rooms := acc_rooms st;
             acc_codes_locked := acc_codes_locked st |}.

Definition Accounts_createCharacter (nc : NewCharacter) (st : Accounts) :
    Outcome (Character * Accounts) :=
  let c := {| char_userId := nc_userId nc;
              firstName := nc_firstName nc;
              middleName := nc_middleName nc;
              lastName := nc_lastName nc |} in
  Ok (c, {| acc_users := acc_users st;
            acc_characters := <[Z.of_nat (size (acc_characters st)) + 1 := c]> (acc_characters st);
            acc_codes := acc_codes st;
            acc_rooms := acc_rooms st;
            acc_codes_locked := acc_codes_locked st |}).

(** In the examples a password is valid when it is the user name
    backwards. *)
#[global] Instance Accounts_AuthStorage : AuthStorage Accounts := {
  getUserByUsername := fun name st =>
    Ok (List.find (fun u => bool_decide (user_username u = name)) (users_of st));
  getUserByEmail := fun email st =>
    Ok (List.find (fun u => bool_decide (user_email u = email)) (users_of st));
  hashPassword := fun password _ => Ok (lit "hash:" ++ password);
  createUser := Accounts_createUser;
  useInviteCode := Accounts_useInviteCode;
  createCharacter := Accounts_createCharacter;
  validateUser := fun name password st =>
    Ok (List.find (fun u => bool_decide (user_username u = name)
                            && bool_decide (password = rev name)) (users_of st));
  getCharactersByUserId := fun userId st =>
    Ok (filter (fun c => char_userId c = userId) (map_to_list (acc_characters st)).*2);
}.

(** In the examples the body is the registration data itself, and the
    schemas refuse an empty user name. *)
#[global] Instance Examples_AuthSchemas : AuthSchemas RegistrationData := {
  registrationSchema_parse := fun d =>
    if is_empty (rd_username d) then Throw ZodError else Ok d;
  loginSchema_parse := fun d =>
    if is_empty (rd_username d) then Throw ZodError
    else Ok {| ld_username := rd_username d; ld_password := rd_password d |};
}.

(** A registration under the user name [username]. *)
Definition registration_of (username : string) : RegistrationData :=
  {| rd_username := lit username;
     rd_email := lit "eva@rpg-realm.cz";
     rd_password := lit "secret1";
     rd_inviteCode := lit "WELCOME2024";
     rd_firstName := lit "Eva";
     rd_middleName := None;
     rd_lastName := lit "Horn";
     rd_birthDate := lit "1995-05-15" |}.

(** The user that the registration of ["eva"] creates in the sample
    accounts. *)
Definition eva : User :=
  {| user_id := 3; user_username := lit "eva";
     user_email := lit "eva@rpg-realm.cz"; user_role := lit "user" |}.

(** A user fills in the first step of the form and submits it. *)
Definition first_step_filled : list UiEvent :=
  [Change Username (lit "eva"); Change Email (lit "eva@rpg-realm.cz");
   Change Password (lit "secret1"); Change PasswordConfirm (lit "secret1");
   Change InviteCodeField (lit "WELCOME2024"); SubmitStep1].
(** * Properties *)

(** ** Strings and numbers *)

Example parseInt_42 : parseInt (JStr (lit "42")) = Num 42.
Proof. reflexivity. Qed.

Example parseInt_leading_space_and_suffix : parseInt (JStr (lit " -5px")) = Num (-5).
Proof. reflexivity. Qed.

Example parseInt_hex : parseInt (JStr (lit "0x1f")) = Num 31.
Proof. reflexivity. Qed.

Example parseInt_no_digits : parseInt (JStr (lit "abc")) = NaN.
Proof. reflexivity. Qed.

Example parseInt_undefined : parseInt JUndefined = NaN.
Proof. reflexivity. Qed.

Example trim_both_ends : trim (lit "  a b  ") = lit "a b".
Proof. reflexivity. Qed.

Lemma isDecimalDigit_bounds c : isDecimalDigit c = true <-> (48 <= c <= 57)%N.
Proof. unfold isDecimalDigit. rewrite andb_true_iff, !N.leb_le. tauto. Qed.

Lemma decimal_digit_not_space c : isDecimalDigit c = true -> isWhiteSpace c = false.
Proof.
  rewrite isDecimalDigit_bounds. intros Hc. unfold isWhiteSpace.
  repeat match goal with
  | |- context [(?a =? ?b)%N] => rewrite (proj2 (N.eqb_neq a b)) by lia
  | |- context [(?a <=? ?b)%N] =>
      first [ rewrite (proj2 (N.leb_gt a b)) by lia
            | rewrite (proj2 (N.leb_le a b)) by lia ]
  end.
  reflexivity.
Qed.

Lemma decimal_digit_value c :
  isDecimalDigit c = true -> digitOf c = Some (Z.of_N c - 48) /\ Z.of_N c - 48 < 10.
Proof.
  intros Hc. unfold digitOf. rewrite Hc.
  apply isDecimalDigit_bounds in Hc. split; [reflexivity | lia].
Qed.

Lemma uint_units_digits d : Forall (fun c => isDecimalDigit c = true) (uint_units d).
Proof. induction d; simpl; constructor; auto. Qed.

Lemma uint_units_nil d : uint_units d = [] -> d = Decimal.Nil.
Proof. destruct d; simpl; congruence. Qed.

(** Reading the digits of a decimal numeral back, from an accumulator. *)
Lemma mathInt_uint_acc d : forall acc z,
  z = Z.pos acc ->
  mathInt 10 z (radixDigits 10 (uint_units d)) = Z.pos (Pos.of_uint_acc d acc).
Proof.
  unfold mathInt.
  induction d; intros acc z ->; simpl; try reflexivity;
    apply IHd; lia.
Qed.

Lemma mathInt_uint d :
  mathInt 10 0 (radixDigits 10 (uint_units d)) = Z.of_N (Pos.of_uint d).
Proof.
  induction d; simpl; try reflexivity; try exact IHd;
    apply mathInt_uint_acc; reflexivity.
Qed.

(** On a string of decimal digits [parseInt] finds no white space, no sign
    and no hexadecimal prefix, and reads all of it. *)
Lemma parseInt_string_decimal s :
  s <> [] -> Forall (fun c => isDecimalDigit c = true) s ->
  parseInt_string s = NumberOf (mathInt 10 0 (radixDigits 10 s))
  /\ parseInt_string (45%N :: s) = NumberOf (- mathInt 10 0 (radixDigits 10 s)).
Proof.
  intros Hne Hs. destruct s as [|c s]; [congruence|]. clear Hne.
  apply Forall_cons in Hs as [Hc Hs].
  destruct (decimal_digit_value c Hc) as [Hv Hlt].
  pose proof (decimal_digit_not_space c Hc) as Hws.
  apply isDecimalDigit_bounds in Hc.
  assert (Hsign : strip_sign (c :: s) = (1, c :: s)).
  { unfold strip_sign.
    destruct (N.eqb_spec c 45); [lia|]. destruct (N.eqb_spec c 43); [lia|]. reflexivity. }
  assert (Hhex : strip_hex_prefix (c :: s) = (10, c :: s)).
  { unfold strip_hex_prefix. destruct s as [|c1 s]; [reflexivity|].
    apply Forall_cons in Hs as [Hc1 _]. apply isDecimalDigit_bounds in Hc1.
    destruct (N.eqb_spec c1 120); [lia|]. destruct (N.eqb_spec c1 88); [lia|].
    rewrite andb_false_r. reflexivity. }
  assert (Hds : radixDigits 10 (c :: s) = (Z.of_N c - 48) :: radixDigits 10 s).
  { simpl. rewrite Hv. destruct (Z.ltb_spec (Z.of_N c - 48) 10); [reflexivity | lia]. }
  split.
  - unfold parseInt_string. simpl trimStart. rewrite Hws, Hsign, Hhex, Hds.
    f_equal; lia.
  - unfold parseInt_string. simpl trimStart. unfold strip_sign.
    change (45 =? 45)%N with true. cbv iota. rewrite Hhex, Hds.
    f_equal; lia.
Qed.

(** [parseInt] reads the decimal form of an integer as the Number nearest to
    it. *)
Lemma parseInt_string_decimal_of n : parseInt_string (decimal n) = NumberOf n.
Proof.
  unfold decimal. destruct n as [|p|p]; simpl Z.to_int; cbv iota.
  - reflexivity.
  - destruct (parseInt_string_decimal (uint_units (Pos.to_uint p))) as [-> _].
    + intros H%uint_units_nil. by apply Unsigned.to_uint_nonnil in H.
    + apply uint_units_digits.
    + rewrite mathInt_uint, Unsigned.of_to. reflexivity.
  - destruct (parseInt_string_decimal (uint_units (Pos.to_uint p))) as [_ ->].
    + intros H%uint_units_nil. by apply Unsigned.to_uint_nonnil in H.
    + apply uint_units_digits.
    + rewrite mathInt_uint, Unsigned.of_to. reflexivity.
Qed.

Lemma two_53_lt_two_1024 : two_53 < two_1024.
Proof. reflexivity. Qed.

(** Up to 2^53 every natural number is a Number value. *)
Lemma roundNat_small m : m < two_53 -> roundNat m = m.
Proof. intros Hm. unfold roundNat. by destruct (Z.ltb_spec m two_53); [|lia]. Qed.

(** From 2^53 on, the nearest Number is at least 2^53. *)
Lemma roundNat_large m : two_53 <= m -> two_53 <= roundNat m.
Proof.
  intros Hm. unfold roundNat. destruct (Z.ltb_spec m two_53) as [|_]; [lia|].
  cbv zeta.
  assert (Hlog : 53 <= Z.log2 m).
  { change 53 with (Z.log2 two_53). by apply Z.log2_le_mono. }
  set (e := Z.log2 m - 52).
  assert (He : 1 <= e) by (unfold e; lia).
  assert (Hq : 2 ^ 52 <= Z.shiftr m e).
  { rewrite Z.shiftr_div_pow2 by lia.
    apply Z.div_le_lower_bound; [apply Z.pow_pos_nonneg; lia|].
    rewrite Z.mul_comm, <- Z.pow_add_r by lia.
    replace (52 + e) with (Z.log2 m) by (unfold e; lia).
    apply Z.log2_spec. unfold two_53 in Hm. lia. }
  set (q := Z.shiftr m e) in *.
  match goal with |- _ <= Z.shiftl ?t e => set (q' := t) end.
  assert (Hq' : 2 ^ 52 <= q').
  { unfold q'. destruct (_ || _); lia. }
  rewrite Z.shiftl_mul_pow2 by lia.
  assert (Hpow : 2 ^ 1 <= 2 ^ e) by (apply Z.pow_le_mono_r; lia).
  change two_53 with (2 ^ 52 * 2 ^ 1).
  apply Z.mul_le_mono_nonneg; lia.
Qed.

Lemma NumberOf_safe n : isSafeInteger n = true -> NumberOf n = Num n.
Proof.
  unfold isSafeInteger. intros Hn%Z.ltb_lt. unfold NumberOf.
  rewrite roundNat_small by exact Hn. cbv zeta.
  pose proof two_53_lt_two_1024.
  destruct (Z.leb_spec two_1024 (Z.abs n)); [lia|].
  f_equal. lia.
Qed.

(** A natural number from 2^53 on is not read as a smaller Number. *)
Lemma NumberOf_large m x : two_53 <= m -> x < two_53 -> NumberOf m <> Num x.
Proof.
  intros Hm Hx. unfold NumberOf. cbv zeta.
  destruct (Z.leb_spec two_1024 (roundNat (Z.abs m))); [discriminate|].
  intros [= Heq].
  pose proof (roundNat_large (Z.abs m)). unfold two_53 in *. lia.
Qed.

(** Below 2^53 the shortest decimal form that reads back as the number is
    its own. *)
Lemma pick_safe x scale :
  0 < x < two_53 -> 0 < scale -> pick x scale = None \/ pick x scale = Some x.
Proof.
  intros Hx Hscale. unfold pick. cbv zeta.
  set (lo := x / scale * scale).
  assert (Hlo : 0 <= lo <= x).
  { unfold lo. split.
    - apply Z.mul_nonneg_nonneg; [apply Z.div_pos|]; lia.
    - rewrite Z.mul_comm. apply Z.mul_div_le. lia. }
  assert (Hhi : x < lo + scale).
  { unfold lo. pose proof (Z.mod_pos_bound x scale Hscale).
    pose proof (Z.div_mod x scale). lia. }
  assert (Hlo_num : NumberOf lo = Num lo).
  { apply NumberOf_safe. unfold isSafeInteger. apply Z.ltb_lt. lia. }
  assert (Hhi_num : NumberOf (lo + scale) <> Num x).
  { destruct (Z.lt_ge_cases (lo + scale) two_53).
    - rewrite NumberOf_safe; [intros [= ?]; lia|].
      unfold isSafeInteger. apply Z.ltb_lt. lia.
    - apply NumberOf_large; lia. }
  rewrite (bool_decide_eq_false_2 _ Hhi_num), Hlo_num.
  destruct (decide (lo = x)) as [->|Hne].
  - right. by rewrite bool_decide_eq_true_2.
  - left. rewrite bool_decide_eq_false_2; [reflexivity|]. intros [= ?]. contradiction.
Qed.

Lemma shortest_from_safe x j : 0 < x < two_53 -> shortest_from x j = x.
Proof.
  intros Hx. induction j as [|j IH]; simpl shortest_from.
  - destruct (pick_safe x (10 ^ Z.of_nat 0) Hx) as [-> | ->]; [reflexivity| |]; reflexivity.
  - destruct (pick_safe x (10 ^ Z.of_nat (S j)) Hx) as [-> | ->].
    + apply Z.pow_pos_nonneg; lia.
    + exact IH.
    + reflexivity.
Qed.

Lemma NumberToString_nat_safe x : 0 < x < two_53 -> NumberToString_nat x = decimal x.
Proof.
  intros Hx. unfold NumberToString_nat, shortest. rewrite shortest_from_safe by exact Hx.
  cbv zeta. unfold two_53 in Hx.
  by destruct (Z.ltb_spec x 1000000000000000000000); [|lia].
Qed.

(** A safe integer prints as its decimal digits. *)
Lemma NumberToString_safe n : isSafeInteger n = true -> NumberToString n = decimal n.
Proof.
  intros Hsafe. unfold NumberToString. rewrite NumberOf_safe by exact Hsafe.
  apply Z.ltb_lt in Hsafe.
  destruct (Z.eqb_spec n 0) as [->|Hne]; [reflexivity|].
  destruct (Z.ltb_spec n 0).
  - rewrite NumberToString_nat_safe by lia.
    destruct n as [|p|p]; try lia. reflexivity.
  - apply NumberToString_nat_safe. lia.
Qed.

(** [parseInt(n)] of a safe integer [n] is [n]. *)
Lemma parseInt_JNum n : isSafeInteger n = true -> parseInt (JNum n) = Num n.
Proof.
  intros Hsafe. unfold parseInt, ToString.
  rewrite NumberToString_safe, parseInt_string_decimal_of by exact Hsafe.
  by apply NumberOf_safe.
Qed.

Lemma parseInt_decimal_string n : parseInt (JStr (decimal n)) = NumberOf n.
Proof. apply parseInt_string_decimal_of. Qed.

Lemma NumberOf_zero n : NumberOf n = Num 0 -> n = 0.
Proof.
  unfold NumberOf. cbv zeta.
  destruct (Z.leb_spec two_1024 (roundNat (Z.abs n))); [discriminate|].
  intros [= Heq].
  destruct (Z.lt_ge_cases (Z.abs n) two_53) as [Hsmall|Hlarge].
  - rewrite roundNat_small in Heq by exact Hsmall. lia.
  - pose proof (roundNat_large _ Hlarge). unfold two_53 in *. lia.
Qed.

Lemma NumberOf_not_NaN n : NumberOf n <> NaN.
Proof. unfold NumberOf. cbv zeta. by destruct (_ <=? _). Qed.

Example parseInt_1e21 : parseInt (JNum 1000000000000000000000) = Num 1.
Proof. vm_compute. reflexivity. Qed.

Example parseInt_above_2_53 :
  parseInt (JStr (lit "9007199254740993")) = Num 9007199254740992.
Proof. vm_compute. reflexivity. Qed.

(** *** Trimming *)

Lemma trimStart_fixed s :
  match s with c :: _ => isWhiteSpace c = false | [] => True end ->
  trimStart s = s.
Proof. destruct s as [|c s]; simpl; [reflexivity|]. by intros ->. Qed.

Lemma trimStart_clean s :
  match trimStart s with c :: _ => isWhiteSpace c = false | [] => True end.
Proof.
  induction s as [|c s IH]; simpl; [exact I|].
  destruct (isWhiteSpace c) eqn:Hc; [exact IH | exact Hc].
Qed.

Lemma trimStart_idemp s : trimStart (trimStart s) = trimStart s.
Proof. apply trimStart_fixed, trimStart_clean. Qed.

Lemma trimStart_snoc s c :
  isWhiteSpace c = false -> trimStart (s ++ [c]) = trimStart s ++ [c].
Proof.
  intros Hc. induction s as [|x s IH]; simpl.
  - by rewrite Hc.
  - destruct (isWhiteSpace x); [exact IH | reflexivity].
Qed.

Lemma trimEnd_idemp s : trimEnd (trimEnd s) = trimEnd s.
Proof. unfold trimEnd. by rewrite rev_involutive, trimStart_idemp. Qed.

(** Trimming the end leaves a clean start clean. *)
Lemma trimEnd_keeps_start s :
  match s with c :: _ => isWhiteSpace c = false | [] => True end ->
  match trimEnd s with c :: _ => isWhiteSpace c = false | [] => True end.
Proof.
  destruct s as [|c s]; [intros _; exact I|]. intros Hc.
  unfold trimEnd. simpl rev. rewrite trimStart_snoc by exact Hc.
  rewrite rev_app_distr. simpl. exact Hc.
Qed.

(** [trim] is idempotent: a trimmed content stays as it is when it is
    trimmed again. *)
Lemma trim_idemp s : trim (trim s) = trim s.
Proof.
  unfold trim at 1.
  rewrite (trimStart_fixed (trim s)).
  - unfold trim. apply trimEnd_idemp.
  - unfold trim. apply trimEnd_keeps_start, trimStart_clean.
Qed.

Lemma valid_content_trim s : valid_content (trim s) = valid_content s.
Proof. unfold valid_content. by rewrite trim_idemp. Qed.

(** *** The world *)

Section World_facts.
Context {S : Type} `{!Storage S} `{!MessageSchema}.
Implicit Types (w : World S) (ws : WebSocket).

Lemma enqueue_nil w : enqueue [] w = w.
Proof. destruct w. unfold enqueue. simpl. by rewrite app_nil_r. Qed.

Lemma enqueue_enqueue a b w : enqueue b (enqueue a w) = enqueue (a ++ b) w.
Proof. unfold enqueue. simpl. by rewrite app_assoc. Qed.

(** The fan-out loop sends the envelope to the open sockets, in the order
    of the set, and to no other. *)
Lemma forEach_open_clients (ev : ServerEvent) (cs : list (WebSocket * ReadyState)) w :
  forEach cs (fun client =>
    if decide (client.2 = OPEN) then send client.1 ev else mret ()) w
  = (Ok (), enqueue ((fun c => (c.1, ev)) <$> filter (fun c => c.2 = OPEN) cs) w).
Proof.
  revert w. induction cs as [|c cs IH]; intros w.
  - simpl. by rewrite enqueue_nil.
  - simpl forEach. unfold mbind, M_bind.
    rewrite filter_cons. destruct (decide (c.2 = OPEN)) as [Hc|Hc].
    + unfold send at 1. rewrite IH, enqueue_enqueue. reflexivity.
    + unfold mret, M_ret. rewrite IH. reflexivity.
Qed.

(** What the [chat_message] case does on a connection whose bound
    [characterId] is truthy, by the completions of the three calls. *)
Lemma chat_message_bound w ws info message :
  activeConnections w !! ws = Some info ->
  ToBoolean (conn_characterId info) = true ->
  m_type message = JStr (lit "chat_message") ->
  step (MessageEvent ws (ParsedObject message)) w =
    let invalid := [(ws, ErrorNotice (lit "Invalid message format"))] in
    match insertMessageSchema_parse
            {| cand_roomId := m_roomId message;
               cand_characterId := conn_characterId info;
               cand_content := m_content message;
               cand_messageType := js_or (m_messageType message) (JStr (lit "message")) |}
    with
    | Throw _ => enqueue invalid w
    | Ok validatedMessage =>
        match createMessage validatedMessage (storage w) with
        | Throw _ => enqueue invalid w
        | Ok (savedMessage, st') =>
            match getCharacter (conn_characterId info) st' with
            | Throw _ => enqueue invalid (set_storage st' w)
            | Ok None => set_storage st' w
            | Ok (Some character) =>
                enqueue
                  ((fun c => (c.1, NewMessage savedMessage
                                     {| cn_firstName := firstName character;
                                        cn_middleName := middleName character;
                                        cn_lastName := lastName character |}))
                   <$> filter (fun c => c.2 = OPEN) (clients w))
                  (set_storage st' w)
            end
        end
    end.
Proof.
  intros Hget Hbound Htype.
  unfold step, on_message, try_catch. rewrite Htype.
  destruct (decide (JStr (lit "chat_message") = JStr (lit "authenticate"))) as [Heq|_];
    [discriminate Heq|].
  destruct (decide (JStr (lit "chat_message") = JStr (lit "chat_message"))) as [_|Hne];
    [|congruence].
  unfold chat_message, mbind, M_bind, activeConnections_get, call.
  rewrite Hget. change (optional_characterId (Some info)) with (conn_characterId info).
  rewrite Hbound. change (negb true) with false. cbv beta iota.
  destruct (insertMessageSchema_parse _) as [validated|e]; [|reflexivity].
  unfold storage_write.
  destruct (createMessage validated (storage w)) as [[saved st']|e]; [|reflexivity].
  unfold storage_read. change (storage (set_storage st' w)) with st'.
  destruct (getCharacter (conn_characterId info) st') as [[character|]|e];
    [| reflexivity | reflexivity].
  unfold wss_clients. rewrite forEach_open_clients. reflexivity.
Qed.

End World_facts.

(** ** The connection registry and the dispatcher *)

Section Dispatcher.
Context {S : Type} `{!Storage S} `{!MessageSchema}.
Implicit Types (w : World S) (ws : WebSocket) (message : WsMessage).

Lemma authenticate_step w ws message :
  m_type message = JStr (lit "authenticate") ->
  step (MessageEvent ws (ParsedObject message)) w =
    enqueue [(ws, Authenticated true)]
      (set_activeConnections
         (insert ws {| conn_userId := m_userId message;
                       conn_characterId := m_characterId message |}) w).
Proof.
  intros Htype. unfold step, on_message, try_catch. rewrite Htype.
  destruct (decide (JStr (lit "authenticate") = JStr (lit "authenticate"))) as [_|Hne];
    [reflexivity | congruence].
Qed.

Lemma clients_add_elem ws (cs : list (WebSocket * ReadyState)) :
  ws ∈ (clients_add ws cs).*1.
Proof.
  unfold clients_add. destruct (decide (ws ∈ cs.*1)) as [Hin|Hnin]; [exact Hin|].
  rewrite fmap_app. apply elem_of_app. right. simpl. apply list_elem_of_singleton. reflexivity.
Qed.

Lemma clients_delete_not_elem ws (cs : list (WebSocket * ReadyState)) :
  ws ∉ (clients_delete ws cs).*1.
Proof.
  unfold clients_delete. intros Hin.
  apply list_elem_of_fmap in Hin as [[ws' rs] [Heq Hin]]. simpl in Heq. subst ws'.
  apply list_elem_of_filter in Hin as [Hne _]. simpl in Hne. congruence.
Qed.

(** The message listener writes the registry in the [authenticate] case
    only, and only at the socket of the event. *)
Lemma on_message_registry w ws data :
  activeConnections (on_message ws data w).2
  = match data with
    | ParsedObject message =>
        if decide (m_type message = JStr (lit "authenticate"))
        then <[ws := {| conn_userId := m_userId message;
                        conn_characterId := m_characterId message |}]> (activeConnections w)
        else activeConnections w
    | _ => activeConnections w
    end.
Proof.
  unfold on_message, try_catch.
  destruct data as [| | |message]; try reflexivity.
  destruct (decide (m_type message = JStr (lit "authenticate"))); [reflexivity|].
  destruct (decide (m_type message = JStr (lit "chat_message"))); [|reflexivity].
  unfold chat_message, mbind, M_bind, activeConnections_get, call.
  destruct (negb (ToBoolean (optional_characterId (activeConnections w !! ws))));
    [reflexivity|].
  destruct (insertMessageSchema_parse _) as [validated|e1]; [|reflexivity].
  unfold storage_write.
  destruct (createMessage validated (storage w)) as [[saved st']|e2]; [|reflexivity].
  unfold storage_read.
  destruct (getCharacter _ _) as [[character|]|e3]; [|reflexivity|reflexivity].
  unfold wss_clients. rewrite forEach_open_clients. reflexivity.
Qed.

(** The entry of a socket changes with the events of that socket only. *)
Lemma registry_entry_local w (ev : Event) ws :
  event_socket ev <> ws ->
  activeConnections (step ev w) !! ws = activeConnections w !! ws.
Proof.
  intros Hother. destruct ev as [ws'|ws' data|ws'|ws']; simpl in Hother.
  - reflexivity.
  - unfold step. rewrite on_message_registry.
    destruct data as [ | | |message]; try reflexivity.
    destruct (decide (m_type message = JStr (lit "authenticate"))); [|reflexivity].
    by rewrite lookup_insert_ne.
  - reflexivity.
  - simpl. by rewrite lookup_delete_ne.
Qed.

End Dispatcher.

(** ** Claims about the connection registry and the dispatcher *)

Section Dispatcher_claims.
Context {S : Type} `{!Storage S} `{!MessageSchema}.
Implicit Types (w : World S) (ws : WebSocket) (message : WsMessage).

(** C4: a [chat_message] event on a connection that has no [characterId]
  bound (no entry in [activeConnections], or an entry whose [characterId]
  is falsy) sends one ["Not authenticated"] error notice to that connection
  and does nothing else: the registry, the client set and the storage are
  as before, and no other frame is sent to anyone. *)
Theorem C4_unauthenticated_chat_rejected w ws message :
m_type message = JStr (lit "chat_message") ->
ToBoolean (optional_characterId (activeConnections w !! ws)) = false ->
step (MessageEvent ws (ParsedObject message)) w
= enqueue [(ws, ErrorNotice (lit "Not authenticated"))] w.
Proof.
intros Htype Hunbound. unfold step, on_message, try_catch. rewrite Htype.
destruct (decide (JStr (lit "chat_message") = JStr (lit "authenticate"))) as [Heq|_];
  [discriminate Heq|].
destruct (decide (JStr (lit "chat_message") = JStr (lit "chat_message"))) as [_|Hne];
  [|congruence].
unfold chat_message, mbind, M_bind, activeConnections_get.
rewrite Hunbound. reflexivity.
Qed.

(** C8, as the code has it: connecting adds the socket to [wss.clients] and
  leaves [activeConnections] as it is (no entry is inserted: a connection
  without identity is one that has no entry); an [authenticate] event
  inserts or overwrites the entry of the connection with the identity
  fields of the event; closing removes the entry and the socket
  unconditionally. *)
Theorem C8_registry_lifecycle w ws message :
m_type message = JStr (lit "authenticate") ->
let connected := step (Connection ws) w in
let authenticated := step (MessageEvent ws (ParsedObject message)) w in
let closed := step (Close ws) w in
(activeConnections connected = activeConnections w
 /\ ws ∈ (clients connected).*1)
/\ activeConnections authenticated
   = <[ws := {| conn_userId := m_userId message;
                conn_characterId := m_characterId message |}]> (activeConnections w)
/\ (activeConnections closed = delete ws (activeConnections w)
    /\ activeConnections closed !! ws = None
    /\ ws ∉ (clients closed).*1).
Proof.
intros Htype. cbv zeta. split; [|split].
- split; [reflexivity|]. simpl. apply clients_add_elem.
- rewrite authenticate_step by exact Htype. reflexivity.
- split; [reflexivity|]. split.
  + simpl. apply lookup_delete_eq.
  + simpl. apply clients_delete_not_elem.
Qed.

(** C9: an [authenticate] event, whatever its [userId] and [characterId]
  (absent ones included), binds the connection to exactly these two values
  and answers the sender with [{type: 'authenticated', success: true}];
  nothing else is read, checked or changed. *)
Theorem C9_authenticate_always_succeeds w ws message :
m_type message = JStr (lit "authenticate") ->
step (MessageEvent ws (ParsedObject message)) w
= enqueue [(ws, Authenticated true)]
    (set_activeConnections
       (insert ws {| conn_userId := m_userId message;
                     conn_characterId := m_characterId message |}) w).
Proof. apply authenticate_step. Qed.

(** C3, as the code has it: when a [chat_message] event is persisted and the
  character bound to the connection is found, the envelope
  [{type: 'new_message', message: {...savedMessage, character}}] is sent
  once to every socket of [wss.clients] whose [readyState] is [OPEN], in
  the order of the set, and to no other; the room of the message plays no
  part in who receives it. *)
Theorem C3_broadcast_reaches_open_clients w ws info message validated saved st' character :
m_type message = JStr (lit "chat_message") ->
activeConnections w !! ws = Some info ->
ToBoolean (conn_characterId info) = true ->
insertMessageSchema_parse
  {| cand_roomId := m_roomId message;
     cand_characterId := conn_characterId info;
     cand_content := m_content message;
     cand_messageType := js_or (m_messageType message) (JStr (lit "message")) |}
= Ok validated ->
createMessage validated (storage w) = Ok (saved, st') ->
getCharacter (conn_characterId info) st' = Ok (Some character) ->
let envelope :=
  NewMessage saved {| cn_firstName := firstName character;
                      cn_middleName := middleName character;
                      cn_lastName := lastName character |} in
let w' := step (MessageEvent ws (ParsedObject message)) w in
storage w' = st'
/\ outbox w' = outbox w ++ ((fun c => (c.1, envelope)) <$> filter (fun c => c.2 = OPEN) (clients w))
/\ (forall client, (client, OPEN) ∈ clients w -> (client, envelope) ∈ outbox w')
/\ (forall client ev, (client, ev) ∈ outbox w' ->
      (client, ev) ∈ outbox w \/ (ev = envelope /\ (client, OPEN) ∈ clients w)).
Proof.
intros Htype Hget Hbound Hparse Hcreate Hchar envelope w'.
assert (Hw' : w' = enqueue ((fun c => (c.1, envelope)) <$> filter (fun c => c.2 = OPEN) (clients w))
                     (set_storage st' w)).
{ unfold w'. rewrite (chat_message_bound w ws info message Hget Hbound Htype).
  cbv zeta. rewrite Hparse, Hcreate, Hchar. reflexivity. }
rewrite Hw'. simpl storage. simpl outbox. split; [reflexivity|]. split; [reflexivity|]. split.
- intros client Hin. apply elem_of_app. right.
  apply list_elem_of_fmap. exists (client, OPEN). split; [reflexivity|].
  apply list_elem_of_filter. split; [reflexivity | exact Hin].
- intros client ev [Hold|Hnew]%elem_of_app; [left; exact Hold | right].
  apply list_elem_of_fmap in Hnew as [[c rs] [Heq Hin]].
  apply list_elem_of_filter in Hin as [Hopen Hin]. simpl in Heq, Hopen.
  injection Heq as -> ->. subst rs. split; [reflexivity | exact Hin].
Qed.

End Dispatcher_claims.

(** A socket that connected and never authenticated sends [hello]. *)
Lemma C4_witness_second_socket :
  step (MessageEvent 2%nat (ParsedObject hello)) two_connected
  = enqueue [(2%nat, ErrorNotice (lit "Not authenticated"))] two_connected.
Proof. apply C4_unauthenticated_chat_rejected; reflexivity. Defined.

(** C8, as stated, fails: connecting inserts no entry for the connection. *)
Lemma C8_connect_inserts_no_entry :
  ~ exists info : ConnectionInfo,
      activeConnections (step (Connection 1%nat) (initial_world sample_store)) !! 1%nat
      = Some info.
Proof. intros [info Hinfo]. vm_compute in Hinfo. discriminate Hinfo. Qed.

(** The life of the second socket, next to an authenticated first one. *)
Lemma C8_witness_second_socket :
  (activeConnections (step (Connection 2%nat) (first_authenticated 1))
   = activeConnections (first_authenticated 1)
   /\ 2%nat ∈ (clients (step (Connection 2%nat) (first_authenticated 1))).*1)
  /\ activeConnections
       (step (MessageEvent 2%nat (ParsedObject (authenticate_message JUndefined (JNum 2))))
          (first_authenticated 1))
     = <[2%nat := {| conn_userId := JUndefined; conn_characterId := JNum 2 |}]>
         (activeConnections (first_authenticated 1))
  /\ (activeConnections (step (Close 2%nat) (first_authenticated 1))
      = delete 2%nat (activeConnections (first_authenticated 1))
      /\ activeConnections (step (Close 2%nat) (first_authenticated 1)) !! 2%nat = None
      /\ 2%nat ∉ (clients (step (Close 2%nat) (first_authenticated 1))).*1).
Proof.
  exact (C8_registry_lifecycle (first_authenticated 1) 2%nat
           (authenticate_message JUndefined (JNum 2)) eq_refl).
Defined.

(** An [authenticate] event with neither [userId] nor [characterId]. *)
Lemma C9_witness_no_identity :
  step (MessageEvent 1%nat (ParsedObject (authenticate_message JUndefined JUndefined)))
    two_connected
  = enqueue [(1%nat, Authenticated true)]
      (set_activeConnections
         (insert 1%nat {| conn_userId := JUndefined; conn_characterId := JUndefined |})
         two_connected).
Proof. apply C9_authenticate_always_succeeds. reflexivity. Defined.

(** C3, as stated, fails twice over.  A message is persisted for a
    connection bound to a character that the provider does not know, and
    nothing is sent to the two open sockets; and a socket that is still in
    [wss.clients] but closing is skipped by the fan-out. *)
Lemma C3_persisted_without_broadcast :
  (let w := first_authenticated 7 in
   let w' := step (MessageEvent 1%nat (ParsedObject hello)) w in
   rows (storage w') = [hello_row 7]
   /\ clients w' = [(1%nat, OPEN); (2%nat, OPEN)]
   /\ outbox w' = outbox w)
  /\ (let w := step (Closing 2%nat) (first_authenticated 1) in
      let w' := step (MessageEvent 1%nat (ParsedObject hello)) w in
      rows (storage w') = [hello_row 1]
      /\ clients w' = [(1%nat, OPEN); (2%nat, CLOSING)]
      /\ outbox w' = outbox w ++ [(1%nat, hello_envelope)]).
Proof. vm_compute. repeat split. Qed.

(** [ann] says [hello]: both open sockets get the envelope. *)
Lemma C3_witness_two_open :
  let w' := step (MessageEvent 1%nat (ParsedObject hello)) (first_authenticated 1) in
  storage w' = {| rows := [hello_row 1]; nextId := 2; clock := 1748444400;
                  characters := characters sample_store |}
  /\ outbox w' = outbox (first_authenticated 1)
                 ++ ((fun c => (c.1, hello_envelope))
                     <$> filter (fun c => c.2 = OPEN) (clients (first_authenticated 1)))
  /\ (forall client, (client, OPEN) ∈ clients (first_authenticated 1) ->
        (client, hello_envelope) ∈ outbox w')
  /\ (forall client ev, (client, ev) ∈ outbox w' ->
        (client, ev) ∈ outbox (first_authenticated 1)
        \/ (ev = hello_envelope /\ (client, OPEN) ∈ clients (first_authenticated 1))).
Proof.
  exact (C3_broadcast_reaches_open_clients (first_authenticated 1) 1%nat
           {| conn_userId := JNum 1; conn_characterId := JNum 1 |} hello
           {| ins_roomId := Num 5; ins_characterId := Num 1;
              ins_content := lit "hello"; ins_messageType := JStr (lit "message") |}
           (hello_row 1)
           {| rows := [hello_row 1]; nextId := 2; clock := 1748444400;
              characters := characters sample_store |}
           ann eq_refl eq_refl eq_refl eq_refl eq_refl eq_refl).
Defined.

(** ** The store and the schema *)

Lemma trimStart_length s : (length (trimStart s) <= length s)%nat.
Proof.
  induction s as [|c s IH]; simpl; [lia|].
  destruct (isWhiteSpace c); simpl; lia.
Qed.

(** Trimming never lengthens. *)
Lemma trim_length s : len (trim s) <= len s.
Proof.
  unfold len, trim, trimEnd. rewrite length_rev.
  pose proof (trimStart_length (rev (trimStart s))) as H1.
  rewrite length_rev in H1. pose proof (trimStart_length s). lia.
Qed.

Lemma valid_content_bounds s :
  valid_content s = true <-> 1 <= len (trim s) <= 5000.
Proof. unfold valid_content. rewrite andb_true_iff, !Z.leb_le. tauto. Qed.

(** What the schema accepts, and what it returns then. *)
Lemma Schema_parse_Ok c validated :
  Schema_parse c = Ok validated ->
  exists roomId characterId content,
    cand_roomId c = JNum roomId
    /\ cand_characterId c = JNum characterId
    /\ cand_content c = JStr content
    /\ valid_content content = true
    /\ ins_roomId validated = Num roomId
    /\ ins_characterId validated = Num characterId
    /\ ins_content validated = trim content.
Proof.
  unfold Schema_parse.
  destruct (cand_roomId c) as [| | |roomId|]; try discriminate.
  destruct (cand_characterId c) as [| | |characterId|]; try discriminate.
  destruct (cand_content c) as [| | | |content]; try discriminate.
  destruct (cand_messageType c) as [| | | |t]; try discriminate;
    destruct (valid_content content) eqn:Hvalid; try discriminate;
    intros [= <-]; exists roomId, characterId, content; simpl; auto 10.
Qed.

Lemma Schema_parse_valid roomId characterId content t :
  valid_content content = true ->
  Schema_parse {| cand_roomId := JNum roomId;
                  cand_characterId := JNum characterId;
                  cand_content := JStr content;
                  cand_messageType := JStr t |}
  = Ok {| ins_roomId := Num roomId;
          ins_characterId := Num characterId;
          ins_content := trim content;
          ins_messageType := JStr t |}.
Proof. intros Hvalid. unfold Schema_parse. simpl. by rewrite Hvalid. Qed.

Lemma Store_createMessage_valid st roomId characterId content t :
  valid_content content = true ->
  Store_createMessage {| ins_roomId := Num roomId;
                         ins_characterId := Num characterId;
                         ins_content := content;
                         ins_messageType := JStr t |} st
  = Ok (created_row st roomId characterId content t,
        appended st (created_row st roomId characterId content t)).
Proof. intros Hvalid. unfold Store_createMessage. simpl. by rewrite Hvalid. Qed.

(** A creation that completes appended exactly the row it returns, with the
    ids it was handed. *)
Lemma Store_createMessage_Ok ins st m st' :
  Store_createMessage ins st = Ok (m, st') ->
  st' = appended st m
  /\ ins_roomId ins = Num (msg_roomId m)
  /\ ins_characterId ins = Num (msg_characterId m)
  /\ msg_content m = trim (ins_content ins)
  /\ valid_content (ins_content ins) = true.
Proof.
  unfold Store_createMessage.
  destruct (ins_roomId ins) as [|roomId|]; [discriminate| |discriminate].
  destruct (ins_characterId ins) as [|characterId|]; [discriminate| |discriminate].
  destruct (ins_messageType ins) as [| | | |t]; try discriminate;
    destruct (valid_content (ins_content ins)) eqn:Hvalid; try discriminate;
    intros [= <- <-]; auto.
Qed.

(** A creation that throws wrote nothing: this is built into the type of
    [createMessage], and the content rule is the only cause for well-typed
    inserts. *)
Lemma Store_createMessage_invalid st roomId characterId content t :
  valid_content content = false ->
  Store_createMessage {| ins_roomId := Num roomId;
                         ins_characterId := Num characterId;
                         ins_content := content;
                         ins_messageType := JStr t |} st
  = Throw ValidationError.
Proof. intros Hvalid. unfold Store_createMessage. simpl. by rewrite Hvalid. Qed.

(** *** The HTTP creation route *)

Section Post_messages.
Context {S : Type} `{!Storage S}.

(** What [POST /api/chat/messages] does with a string content, for a
  logged-in user and truthy [roomId] and [characterId]: the two length
  tests read the content as it was sent, the store gets it trimmed. *)
Lemma post_messages_string (req : Request) (st : S) (u : Z) (s : jstring) :
session_userId req = Some u -> u <> 0 ->
ToBoolean (body_roomId (body req)) = true ->
ToBoolean (body_characterId (body req)) = true ->
body_content (body req) = JStr s ->
post_messages req st =
  if bool_decide (s = [])
  then (res_error 400 "roomId, characterId, and content are required", st)
  else if 5000 <? len s
  then (res_error 400 "Message content must be 1-5000 characters", st)
  else
    match createMessage
            {| ins_roomId := parseInt (body_roomId (body req));
               ins_characterId := parseInt (body_characterId (body req));
               ins_content := trim s;
               ins_messageType := js_or (body_messageType (body req)) (JStr (lit "text")) |} st
    with
    | Ok (message, st') => (res_json (PMessage message), st')
    | Throw _ => (res_error 500 "Failed to create message", st)
    end.
Proof.
intros Hsession Hu Hroom Hchar Hcontent.
unfold post_messages, requireAuth. rewrite Hsession.
destruct (Z.eqb_spec u 0) as [|_]; [contradiction|].
rewrite Hroom, Hchar, Hcontent. simpl ToBoolean. simpl negb at 1 2.
rewrite !orb_false_l.
destruct (bool_decide (s = [])) eqn:Hnil; [reflexivity|].
simpl negb. cbv iota. simpl js_length. cbv iota.
unfold js_lt, js_gt. fold (len s).
assert (Hpos : 1 <= len s).
{ apply bool_decide_eq_false in Hnil. unfold len. destruct s; [congruence | simpl; lia]. }
destruct (Z.ltb_spec (len s) 1) as [|_]; [lia|]. rewrite orb_false_l.
destruct (5000 <? len s); [reflexivity|].
simpl js_trim. cbv iota.
destruct (createMessage _ st) as [[message st']|e]; reflexivity.
Qed.

End Post_messages.

(** ** Claims about message creation *)

(** C1, where the code departs from it: the route tests the length of the
    content as it was sent and trims it afterwards.  A content of a space and
    5000 letters trims to 5000 code units and is refused with the 400 of the
    length rule, whatever the storage; a content of three spaces trims to
    nothing, passes both tests, and is handed to [storage.createMessage] as
    the empty string, so that the answer is the store's: a created message
    or the 500 of the [catch], never the 400 of the length rule. *)
Theorem C1_length_checked_before_trim {S : Type} `{!Storage S} (st : S) :
  (len (trim padded_content) = 5000
   /\ post_messages (post_request 1 (post_body padded_content)) st
      = (res_error 400 "Message content must be 1-5000 characters", st))
  /\ (len (trim blank_content) = 0
      /\ post_messages (post_request 1 (post_body blank_content)) st
         = match createMessage {| ins_roomId := Num 1;
                                  ins_characterId := Num 2;
                                  ins_content := [];
                                  ins_messageType := JStr (lit "text") |} st
           with
           | Ok (message, st') => (res_json (PMessage message), st')
           | Throw _ => (res_error 500 "Failed to create message", st)
           end).
Proof.
  split; split.
  - vm_compute. reflexivity.
  - rewrite (post_messages_string _ st 1 padded_content) by (reflexivity || lia).
    replace (bool_decide (padded_content = [])) with false by reflexivity.
    replace (5000 <? len padded_content) with true by (vm_compute; reflexivity).
    reflexivity.
  - reflexivity.
  - rewrite (post_messages_string _ st 1 blank_content) by (reflexivity || lia).
    reflexivity.
Qed.

(** With the store of the design document the blank content is refused by
    the store, and the route answers 500. *)
Example post_blank_content_sample_store :
  post_messages (post_request 1 (post_body blank_content)) sample_store
  = (res_error 500 "Failed to create message", sample_store).
Proof. reflexivity. Qed.

(** C2: on a connection that the registry binds to the character [C], a
    [chat_message] event persists nothing or one row, and that row is
    attributed to [C], whatever [characterId] the payload carries; when the
    payload is valid (a room number, a content with 1 to 5000 code units
    after trimming, a message type that is absent or a string) the row is
    persisted. *)
Theorem C2_bound_character_wins (w : World Store) (ws : WebSocket) (info : ConnectionInfo)
    (C : Z) (message : WsMessage) :
  activeConnections w !! ws = Some info ->
  conn_characterId info = JNum C ->
  C <> 0 ->
  m_type message = JStr (lit "chat_message") ->
  let w' := step (MessageEvent ws (ParsedObject message)) w in
  (rows (storage w') = rows (storage w)
   \/ exists saved, rows (storage w') = rows (storage w) ++ [saved]
                    /\ msg_characterId saved = C)
  /\ (forall r s t,
        m_roomId message = JNum r ->
        m_content message = JStr s ->
        valid_content s = true ->
        js_or (m_messageType message) (JStr (lit "message")) = JStr t ->
        exists saved, rows (storage w') = rows (storage w) ++ [saved]
                      /\ msg_characterId saved = C
                      /\ msg_roomId saved = r
                      /\ msg_content saved = trim s
                      /\ msg_messageType saved = t).
Proof.
  intros Hget HC HC0 Htype w'.
  assert (Hbound : ToBoolean (conn_characterId info) = true).
  { rewrite HC. simpl. by destruct (Z.eqb_spec C 0). }
  pose proof (chat_message_bound w ws info message Hget Hbound Htype) as Hstep.
  fold w' in Hstep. cbv zeta in Hstep.
  change (insertMessageSchema_parse ?c) with (Schema_parse c) in Hstep.
  change (createMessage ?i ?s) with (Store_createMessage i s) in Hstep.
  change (getCharacter ?c ?s) with (Store_getCharacter c s) in Hstep.
  split.
  - destruct (Schema_parse _) as [validated|e] eqn:Hparse;
      [|left; rewrite Hstep; reflexivity].
    destruct (Store_createMessage validated (storage w)) as [[saved st']|e] eqn:Hcreate;
      [|left; rewrite Hstep; reflexivity].
    right. exists saved.
    apply Schema_parse_Ok in Hparse
      as (roomId & characterId & content & _ & Hcid & _ & _ & _ & Hins & _).
    simpl in Hcid. rewrite HC in Hcid. injection Hcid as <-.
    apply Store_createMessage_Ok in Hcreate as (-> & _ & Hsaved & _).
    rewrite Hins in Hsaved. injection Hsaved as ->.
    split; [|reflexivity].
    rewrite Hstep. destruct (Store_getCharacter _ _) as [[character|]|e]; reflexivity.
  - intros r s t Hroom Hcontent Hvalid Htype'.
    rewrite HC, Hroom, Hcontent, Htype' in Hstep.
    rewrite (Schema_parse_valid r C s t Hvalid) in Hstep.
    rewrite Store_createMessage_valid in Hstep by (by rewrite valid_content_trim).
    exists (created_row (storage w) r C (trim s) t).
    split; [|simpl; by rewrite trim_idemp].
    rewrite Hstep. destruct (Store_getCharacter _ _) as [[character|]|e]; reflexivity.
Qed.

(** The payload of [hello] names character 2; the connection is bound to
    character 1. *)
Lemma C2_witness_hello :
  let w' := step (MessageEvent 1%nat (ParsedObject hello)) (first_authenticated 1) in
  (rows (storage w') = rows (storage (first_authenticated 1))
   \/ exists saved, rows (storage w') = rows (storage (first_authenticated 1)) ++ [saved]
                    /\ msg_characterId saved = 1)
  /\ (forall r s t,
        m_roomId hello = JNum r ->
        m_content hello = JStr s ->
        valid_content s = true ->
        js_or (m_messageType hello) (JStr (lit "message")) = JStr t ->
        exists saved, rows (storage w') = rows (storage (first_authenticated 1)) ++ [saved]
                      /\ msg_characterId saved = 1
                      /\ msg_roomId saved = r
                      /\ msg_content saved = trim s
                      /\ msg_messageType saved = t).
Proof.
  apply (C2_bound_character_wins (first_authenticated 1) 1%nat
           {| conn_userId := JNum 1; conn_characterId := JNum 1 |} 1 hello).
  - reflexivity.
  - reflexivity.
  - lia.
  - reflexivity.
Defined.

(** C5, where the code departs from it: with no [messageType], the HTTP
    route stores the type ["text"], and the WebSocket dispatcher stores the
    type ["message"]. *)
Theorem C5_default_message_type_differs :
  (exists saved st',
     post_messages (post_request 1 (post_body (lit "hello"))) sample_store
     = (res_json (PMessage saved), st')
     /\ msg_messageType saved = lit "text")
  /\ (exists saved,
        rows (storage (step (MessageEvent 1%nat (ParsedObject hello)) (first_authenticated 1)))
        = [saved]
        /\ msg_messageType saved = lit "message"
        /\ msg_messageType saved <> lit "text").
Proof.
  split.
  - eexists _, _. split; [vm_compute; reflexivity | reflexivity].
  - exists (hello_row 1). split; [vm_compute; reflexivity|].
    split; [reflexivity | discriminate].
Qed.

(** An id as a client sends it, the number or its decimal digits in a
    string, is truthy unless it is 0, and [parseInt] reads a safe integer
    back as it is. *)
Lemma decimal_nonempty n : decimal n <> [].
Proof.
  unfold decimal. destruct n as [|p|p]; simpl Z.to_int; cbv iota; try discriminate.
  intros H%uint_units_nil. by apply Unsigned.to_uint_nonnil in H.
Qed.

Lemma sent_id_truthy (v : JsVal) (n : Z) :
  v = JNum n \/ v = JStr (decimal n) -> n <> 0 -> ToBoolean v = true.
Proof.
  intros [-> | ->] Hn; simpl.
  - by destruct (Z.eqb_spec n 0).
  - apply negb_true_iff, bool_decide_eq_false. apply decimal_nonempty.
Qed.

Lemma sent_id_parseInt (v : JsVal) (n : Z) :
  v = JNum n \/ v = JStr (decimal n) -> isSafeInteger n = true -> parseInt v = Num n.
Proof.
  intros [-> | ->] Hsafe.
  - by apply parseInt_JNum.
  - rewrite parseInt_decimal_string. by apply NumberOf_safe.
Qed.

(** What the creation route does with a well-formed body on the store of the
    design document: the row is created from the ids of the body. *)
Lemma post_messages_created (st : Store) (req : Request) (u r c : Z) (s t : jstring) :
  session_userId req = Some u -> u <> 0 ->
  body_roomId (body req) = JNum r \/ body_roomId (body req) = JStr (decimal r) ->
  r <> 0 -> isSafeInteger r = true ->
  body_characterId (body req) = JNum c \/ body_characterId (body req) = JStr (decimal c) ->
  c <> 0 -> isSafeInteger c = true ->
  body_content (body req) = JStr s ->
  len s <= 5000 -> 1 <= len (trim s) ->
  js_or (body_messageType (body req)) (JStr (lit "text")) = JStr t ->
  post_messages req st
  = (res_json (PMessage (created_row st r c s t)), appended st (created_row st r c s t)).
Proof.
  intros Hsession Hu Hroom Hr Hrsafe Hchar Hc Hcsafe Hcontent Hlen Htrim Htype.
  rewrite (post_messages_string req st u s Hsession Hu); [| | |exact Hcontent].
  - pose proof (trim_length s) as Hle.
    assert (Hnil : bool_decide (s = []) = false).
    { apply bool_decide_eq_false. intros ->. vm_compute in Htrim. by apply Htrim. }
    rewrite Hnil. destruct (Z.ltb_spec 5000 (len s)) as [|_]; [lia|].
    rewrite Htype, (sent_id_parseInt _ r Hroom Hrsafe), (sent_id_parseInt _ c Hchar Hcsafe).
    change (createMessage ?i ?s) with (Store_createMessage i s).
    rewrite Store_createMessage_valid.
    + unfold created_row. by rewrite trim_idemp.
    + rewrite valid_content_trim. apply valid_content_bounds. lia.
  - exact (sent_id_truthy _ r Hroom Hr).
  - exact (sent_id_truthy _ c Hchar Hc).
Qed.

(** The contents that the creation route accepts, on the store of the design
    document: at most 5000 code units as sent, and at least one after
    trimming.  The upper bound is on the content as sent, the lower bound on
    the trimmed one. *)
Lemma post_messages_created_iff (st : Store) (req : Request) (u r c : Z) (s t : jstring) :
  session_userId req = Some u -> u <> 0 ->
  body_roomId (body req) = JNum r \/ body_roomId (body req) = JStr (decimal r) ->
  r <> 0 -> isSafeInteger r = true ->
  body_characterId (body req) = JNum c \/ body_characterId (body req) = JStr (decimal c) ->
  c <> 0 -> isSafeInteger c = true ->
  body_content (body req) = JStr s ->
  js_or (body_messageType (body req)) (JStr (lit "text")) = JStr t ->
  status (post_messages req st).1 = 200 <-> len s <= 5000 /\ 1 <= len (trim s).
Proof.
  intros Hsession Hu Hroom Hr Hrsafe Hchar Hc Hcsafe Hcontent Htype. split.
  - rewrite (post_messages_string req st u s Hsession Hu); [| | |exact Hcontent].
    + destruct (bool_decide (s = [])); [discriminate|].
      destruct (Z.ltb_spec 5000 (len s)) as [|Hlen]; [discriminate|].
      rewrite Htype, (sent_id_parseInt _ r Hroom Hrsafe), (sent_id_parseInt _ c Hchar Hcsafe).
      change (createMessage ?i ?s) with (Store_createMessage i s).
      destruct (valid_content (trim s)) eqn:Hvalid.
      * intros _. rewrite valid_content_trim in Hvalid.
        apply valid_content_bounds in Hvalid. lia.
      * rewrite Store_createMessage_invalid by exact Hvalid. discriminate.
    + exact (sent_id_truthy _ r Hroom Hr).
    + exact (sent_id_truthy _ c Hchar Hc).
  - intros [Hlen Htrim].
    by rewrite (post_messages_created st req u r c s t).
Qed.



(** The same post with the two ids sent as strings. *)
Example post_with_string_ids :
  post_messages
    (post_request 1 {| body_roomId := JStr (lit "1");
                       body_characterId := JStr (lit "2");
                       body_content := JStr (lit "hello");
                       body_messageType := JUndefined |})
    sample_store
  = (res_json (PMessage (created_row sample_store 1 2 (lit "hello") (lit "text"))),
     appended sample_store (created_row sample_store 1 2 (lit "hello") (lit "text"))).
Proof. reflexivity. Qed.

(** A [characterId] of 1e21 is printed as ["1e+21"], of which [parseInt]
    reads the 1: the message is stored under the character 1. *)
Example post_as_1e21 :
  exists saved st',
    post_messages
      (post_request 1 {| body_roomId := JNum 1;
                         body_characterId := JNum 1000000000000000000000;
                         body_content := JStr (lit "hello");
                         body_messageType := JUndefined |})
      sample_store
    = (res_json (PMessage saved), st')
    /\ msg_characterId saved = 1.
Proof. eexists _, _. split; [vm_compute; reflexivity | reflexivity]. Qed.

(** ** Claims about reading *)

(** C6, as stated, fails: a negative [limit] or [offset] is not replaced by
    the default, and neither is a value with a numeric prefix. *)
Lemma C6_negative_limit_is_kept :
  req_limit (read_request "1" (JStr (lit "-5")) (JStr (lit "-3"))) = -5
  /\ req_offset (read_request "1" (JStr (lit "-5")) (JStr (lit "-3"))) = -3
  /\ req_limit (read_request "1" (JStr (lit "-5")) (JStr (lit "-3"))) <> 50
  /\ req_offset (read_request "1" (JStr (lit "-5")) (JStr (lit "-3"))) <> 0.
Proof. repeat split; discriminate. Qed.

Section Pagination.
Context {S : Type} `{!Storage S}.

(** What [parseInt(x) || d] keeps: a Number that is neither [NaN] nor 0, and
    the Number value of a digit string in particular. *)
Lemma num_or_truthy (n : JsNum) (d : Z) : num_falsy n = false -> num_or n d = n.
Proof. destruct n as [|z|negative]; simpl; [discriminate| |reflexivity]. by intros ->. Qed.

Lemma num_or_NumberOf (n d : Z) : n <> 0 \/ d = 0 -> num_or (NumberOf n) d = NumberOf n.
Proof.
  intros Hn. destruct (NumberOf n) as [|z|negative] eqn:Hnum; simpl.
  - by apply NumberOf_not_NaN in Hnum.
  - destruct (Z.eqb_spec z 0) as [->|_]; [|reflexivity].
    apply NumberOf_zero in Hnum. destruct Hn as [Hn | ->]; [contradiction | reflexivity].
  - reflexivity.
Qed.

(** C6, as the code has it: both paginated reads compute
  [limit = parseInt(query.limit) || 50] and
  [offset = parseInt(query.offset) || 0], which cannot throw, hand them to
  [storage.getMessagesByRoom], and answer 500 only if that call throws.
  An absent value, a value that [parseInt] cannot read and a value that
  reads as 0 give the defaults 50 and 0; every other value is handed to the
  store as [parseInt] reads it.  For the decimal digits of an integer that
  is the nearest Number, so that an integer of magnitude below 2^53, a
  negative one included, is handed to the store as it is. *)
Theorem C6_pagination_parameters (req : Request) (st : S) (u : Z) :
session_userId req = Some u -> u <> 0 ->
(get_room_messages req st
 = (match getMessagesByRoom (parseInt (JStr (params_roomId req)))
            (req_limit req) (req_offset req) st with
    | Ok messages => res_json (PMessages messages)
    | Throw _ => res_error 500 "Failed to fetch messages"
    end, st)
 /\ (num_falsy (parseInt (query_roomId req)) = false ->
     get_messages req st
     = (match getMessagesByRoom (parseInt (query_roomId req))
                (req_limit req) (req_offset req) st with
        | Ok messages => res_json (PMessages messages)
        | Throw _ => res_error 500 "Failed to fetch messages"
        end, st)))
/\ (query_limit req = JUndefined -> req_limit req = 50)
/\ (query_offset req = JUndefined -> req_offset req = 0)
/\ (parseInt (query_limit req) = NaN \/ parseInt (query_limit req) = Num 0 ->
    req_limit req = 50)
/\ (parseInt (query_offset req) = NaN \/ parseInt (query_offset req) = Num 0 ->
    req_offset req = 0)
/\ (num_falsy (parseInt (query_limit req)) = false ->
    req_limit req = parseInt (query_limit req))
/\ (num_falsy (parseInt (query_offset req)) = false ->
    req_offset req = parseInt (query_offset req))
/\ (forall n, n <> 0 -> query_limit req = JStr (decimal n) -> req_limit req = NumberOf n)
/\ (forall n, query_offset req = JStr (decimal n) -> req_offset req = NumberOf n)
/\ (forall n, n <> 0 -> isSafeInteger n = true ->
      query_limit req = JStr (decimal n) -> req_limit req = n)
/\ (forall n, isSafeInteger n = true ->
      query_offset req = JStr (decimal n) -> req_offset req = n).
Proof.
intros Hsession Hu. split; [split|].
- unfold get_room_messages, requireAuth. rewrite Hsession.
  destruct (Z.eqb_spec u 0) as [|_]; [contradiction|].
  cbv zeta. destruct (getMessagesByRoom _ _ _ st); reflexivity.
- intros Hroom. unfold get_messages, requireAuth. rewrite Hsession.
  destruct (Z.eqb_spec u 0) as [|_]; [contradiction|].
  cbv zeta. rewrite Hroom. destruct (getMessagesByRoom _ _ _ st); reflexivity.
- unfold req_limit, req_offset. repeat split.
  + by intros ->.
  + by intros ->.
  + by intros [-> | ->].
  + by intros [-> | ->].
  + apply num_or_truthy.
  + apply num_or_truthy.
  + intros n Hn ->. rewrite parseInt_decimal_string. apply num_or_NumberOf. by left.
  + intros n ->. rewrite parseInt_decimal_string. apply num_or_NumberOf. by right.
  + intros n Hn Hsafe ->. rewrite parseInt_decimal_string, num_or_NumberOf by (by left).
    by apply NumberOf_safe.
  + intros n Hsafe ->. rewrite parseInt_decimal_string, num_or_NumberOf by (by right).
    by apply NumberOf_safe.
Qed.

End Pagination.

(** [limit=2&offset=abc]: the two newest messages of room 1. *)
Lemma C6_witness_limit_two :
  get_room_messages (read_request "1" (JStr (lit "2")) (JStr (lit "abc"))) three_messages
  = (res_json (PMessages (with_character three_messages
                            <$> [row 4 1 1 "three"; row 2 1 2 "two"])),
     three_messages).
Proof.
  destruct (C6_pagination_parameters
              (read_request "1" (JStr (lit "2")) (JStr (lit "abc"))) three_messages 1)
    as [[Hread _] _].
  - reflexivity.
  - lia.
  - rewrite Hread. reflexivity.
Defined.

(** A [limit] of 17 digits is handed to the store rounded to 53 bits, and
    one of 400 digits as [Infinity]. *)
Example limit_above_2_53_is_rounded :
  req_limit (read_request "1" (JStr (lit "9007199254740993")) JUndefined)
  = 9007199254740992
  /\ req_limit (read_request "1" (JStr (repeat_unit 57 400)) JUndefined) = Infinity false.
Proof. split; vm_compute; reflexivity. Qed.

(** *** The export *)

#[global] Instance newer_total : Total newer.
Proof. intros a b. unfold newer. lia. Qed.

#[global] Instance newer_trans : Transitive newer.
Proof. intros a b c. unfold newer. lia. Qed.





Lemma map_throwing_cons {A B : Type} (f : A -> Outcome B) (x : A) (l : list A) :
  map_throwing f (x :: l)
  = match f x with
    | Ok y => match map_throwing f l with Ok ys => Ok (y :: ys) | Throw e => Throw e end
    | Throw e => Throw e
    end.
Proof. reflexivity. Qed.





Example export_three_messages :
  get_room_export (read_request "1" JUndefined JUndefined) three_messages
  = (res_json (PExport [projected (row 4 1 1 "three") ann;
                        projected (row 2 1 2 "two") bob;
                        projected (row 1 1 1 "one") ann]),
     three_messages).
Proof. reflexivity. Qed.

(** * Further properties of the routes and the dispatcher *)

(** ** The HTTP routes *)

Section Http_extras.
Context {S : Type} `{!Storage S}.

Lemma requireAuth_rejects (next : Handler S) (req : Request) (st : S) :
  session_userId req = None \/ session_userId req = Some 0 ->
  requireAuth next req st = (res_error 401 "Unauthorized", st).
Proof. unfold requireAuth. by intros [-> | ->]. Qed.

(** Without a logged-in user ([req.session.userId] absent or 0) each of the
    four chat routes behind [requireAuth] answers 401 and leaves the storage
    alone. *)
Theorem chat_routes_require_session (req : Request) (st : S) :
  session_userId req = None \/ session_userId req = Some 0 ->
  get_room_messages req st = (res_error 401 "Unauthorized", st)
  /\ get_messages req st = (res_error 401 "Unauthorized", st)
  /\ post_messages req st = (res_error 401 "Unauthorized", st)
  /\ get_room_export req st = (res_error 401 "Unauthorized", st).
Proof.
  intros Hsession.
  unfold get_room_messages, get_messages, post_messages, get_room_export, requireAuth.
  destruct Hsession as [-> | ->]; repeat split.
Qed.

(** [GET /api/chat/messages] without a usable [roomId] (absent, not a
    number, or 0) answers 400 whatever [limit] and [offset] are, and does
    not query the storage. *)
Theorem get_messages_requires_roomId (req : Request) (st : S) (u : Z) :
  session_userId req = Some u -> u <> 0 ->
  parseInt (query_roomId req) = NaN \/ parseInt (query_roomId req) = Num 0 ->
  get_messages req st = (res_error 400 "roomId is required", st).
Proof.
  intros Hsession Hu Hroom. unfold get_messages, requireAuth. rewrite Hsession.
  destruct (Z.eqb_spec u 0) as [|_]; [contradiction|].
  by destruct Hroom as [-> | ->].
Qed.

Lemma post_messages_missing_field (req : Request) (st : S) (u : Z) :
  session_userId req = Some u -> u <> 0 ->
  ToBoolean (body_roomId (body req)) = false
  \/ ToBoolean (body_characterId (body req)) = false
  \/ ToBoolean (body_content (body req)) = false ->
  post_messages req st
  = (res_error 400 "roomId, characterId, and content are required", st).
Proof.
  intros Hsession Hu Hfalsy. unfold post_messages, requireAuth. rewrite Hsession.
  destruct (Z.eqb_spec u 0) as [|_]; [contradiction|].
  destruct Hfalsy as [-> | [-> | ->]]; simpl; rewrite ?orb_true_r; reflexivity.
Qed.

Lemma post_messages_content_not_a_string (req : Request) (st : S) (u : Z) :
  session_userId req = Some u -> u <> 0 ->
  ToBoolean (body_roomId (body req)) = true ->
  ToBoolean (body_characterId (body req)) = true ->
  ToBoolean (body_content (body req)) = true ->
  (forall s, body_content (body req) <> JStr s) ->
  post_messages req st = (res_error 500 "Failed to create message", st).
Proof.
  intros Hsession Hu Hroom Hchar Htruthy Hkind.
  unfold post_messages, requireAuth. rewrite Hsession.
  destruct (Z.eqb_spec u 0) as [|_]; [contradiction|].
  rewrite Hroom, Hchar, Htruthy. simpl negb. cbv iota. simpl orb. cbv iota.
  destruct (body_content (body req)) as [| |b|n|s]; try discriminate Htruthy;
    [reflexivity | reflexivity | by destruct (Hkind s)].
Qed.

(** The bodies that [POST /api/chat/messages] refuses before it calls the
    storage.  A falsy [roomId], [characterId] or [content] (absent, [null],
    [0], [false], the empty string) is answered with 400.  A truthy [content]
    that is not a string (a number, [true]) passes both length tests, because
    its [length] is [undefined], and fails in [content.trim()]: the answer is
    the 500 of the [catch].  Nothing is created in either case. *)
Theorem post_messages_refused_bodies (req : Request) (st : S) (u : Z) :
  session_userId req = Some u -> u <> 0 ->
  (ToBoolean (body_roomId (body req)) = false
   \/ ToBoolean (body_characterId (body req)) = false
   \/ ToBoolean (body_content (body req)) = false ->
   post_messages req st
   = (res_error 400 "roomId, characterId, and content are required", st))
  /\ (ToBoolean (body_roomId (body req)) = true ->
      ToBoolean (body_characterId (body req)) = true ->
      ToBoolean (body_content (body req)) = true ->
      (forall s, body_content (body req) <> JStr s) ->
      post_messages req st = (res_error 500 "Failed to create message", st)).
Proof.
  intros Hsession Hu. split.
  - by apply (post_messages_missing_field req st u).
  - by apply (post_messages_content_not_a_string req st u).
Qed.

(** What [POST /api/chat/messages] writes: either the storage is as before
    and the answer is not a 200, or the answer is the message that one call
    of [storage.createMessage] returned, for a content that was a string of
    1 to 5000 code units as sent, handed over trimmed: at most 5000 code
    units and no white space at either end. *)
Theorem post_messages_writes_once (req : Request) (st : S) :
  ((post_messages req st).2 = st /\ status (post_messages req st).1 <> 200)
  \/ exists (s : jstring) (message : Message) (st' : S),
       body_content (body req) = JStr s
       /\ 1 <= len s <= 5000
       /\ createMessage
            {| ins_roomId := parseInt (body_roomId (body req));
               ins_characterId := parseInt (body_characterId (body req));
               ins_content := trim s;
               ins_messageType := js_or (body_messageType (body req)) (JStr (lit "text")) |} st
          = Ok (message, st')
       /\ post_messages req st = (res_json (PMessage message), st')
       /\ len (trim s) <= 5000
       /\ trim (trim s) = trim s.
Proof.
  assert (Hrejected : forall r : Response, status r <> 200 ->
            post_messages req st = (r, st) ->
            (post_messages req st).2 = st /\ status (post_messages req st).1 <> 200).
  { intros r Hr ->. split; [reflexivity | exact Hr]. }
  destruct (session_userId req) as [u|] eqn:Hsession.
  2: { left. apply (Hrejected (res_error 401 "Unauthorized")); [discriminate|].
       apply requireAuth_rejects. by left. }
  destruct (Z.eqb_spec u 0) as [->|Hu].
  { left. apply (Hrejected (res_error 401 "Unauthorized")); [discriminate|].
    apply requireAuth_rejects. by right. }
  destruct (ToBoolean (body_roomId (body req))) eqn:Hroom.
  2: { left. eapply Hrejected; [|apply (post_messages_missing_field req st u); auto].
       discriminate. }
  destruct (ToBoolean (body_characterId (body req))) eqn:Hchar.
  2: { left. eapply Hrejected; [|apply (post_messages_missing_field req st u); auto].
       discriminate. }
  destruct (ToBoolean (body_content (body req))) eqn:Htruthy.
  2: { left. eapply Hrejected; [|apply (post_messages_missing_field req st u); auto].
       discriminate. }
  assert (Hkinds : (exists s, body_content (body req) = JStr s)
                   \/ forall s, body_content (body req) <> JStr s).
  { destruct (body_content (body req)) as [| |b|n|s];
      [right| right| right| right| left; by exists s]; discriminate. }
  destruct Hkinds as [[s Hcontent]|Hkind].
  2: { left. eapply Hrejected;
         [|apply (post_messages_content_not_a_string req st u); auto].
       discriminate. }
  rewrite (post_messages_string req st u s Hsession Hu Hroom Hchar Hcontent).
  rewrite Hcontent in Htruthy. simpl in Htruthy. apply negb_true_iff in Htruthy.
  rewrite Htruthy. apply bool_decide_eq_false in Htruthy.
  destruct (Z.ltb_spec 5000 (len s)) as [|Hlen];
    [left; split; [reflexivity | discriminate]|].
  destruct (createMessage _ st) as [[message st']|e] eqn:Hcreate;
    [|left; split; [reflexivity | discriminate]].
  right. exists s, message, st'.
  pose proof (trim_length s).
  assert (1 <= len s) by (unfold len; destruct s; [congruence | simpl; lia]).
  repeat split; try lia; try assumption; try reflexivity. apply trim_idemp.
Qed.

(** The projection of a list of rows either succeeds on all of them or
    throws at the first row without character. *)
Lemma map_throwing_exportEntry_cases (messages : list MessageWithCharacter) :
  (Forall (fun msg => is_Some (mwc_character msg)) messages
   /\ exists exportData,
        map_throwing exportEntry messages = Ok exportData
        /\ length exportData = length messages
        /\ forall i msg, messages !! i = Some msg ->
             exists c, mwc_character msg = Some c
                       /\ exportData !! i = Some (projected (mwc_message msg) c))
  \/ (Exists (fun msg => mwc_character msg = None) messages
      /\ map_throwing exportEntry messages = Throw TypeError).
Proof.
  induction messages as [|msg messages IH].
  - left. split; [constructor|]. exists []. repeat split. intros i msg Hi. by destruct i.
  - rewrite map_throwing_cons.
    destruct (mwc_character msg) as [c|] eqn:Hc.
    + assert (Hentry : exportEntry msg = Ok (projected (mwc_message msg) c))
        by (unfold exportEntry; by rewrite Hc).
      rewrite Hentry.
      destruct IH as [[Hall (exportData & -> & Hlen & Hentries)] | [Hex ->]].
      * left. split; [constructor; [by exists c | exact Hall]|].
        exists (projected (mwc_message msg) c :: exportData). repeat split.
        -- simpl. by rewrite Hlen.
        -- intros [|i] msg' Hi; simpl in *.
           ++ injection Hi as <-. by exists c.
           ++ by apply Hentries.
      * right. split; [by apply Exists_cons_tl | reflexivity].
    + assert (Hentry : exportEntry msg = Throw TypeError)
        by (unfold exportEntry; by rewrite Hc).
      rewrite Hentry. right. split; [by apply Exists_cons_hd | reflexivity].
Qed.

(** The export is all or nothing.  When every row that the storage returns
    has its character, the answer has one entry per row, in the order of the
    rows, each made of the row and its character; when one row has none, the
    answer is the 500 of the [catch] and no part of the export is sent. *)
Theorem export_all_or_nothing (req : Request) (st : S) (u : Z)
    (messages : list MessageWithCharacter) :
  session_userId req = Some u -> u <> 0 ->
  getMessagesByRoom (parseInt (JStr (params_roomId req))) 1000 0 st = Ok messages ->
  (Forall (fun msg => is_Some (mwc_character msg)) messages
   /\ exists exportData,
        get_room_export req st = (res_json (PExport exportData), st)
        /\ length exportData = length messages
        /\ forall i msg, messages !! i = Some msg ->
             exists c, mwc_character msg = Some c
                       /\ exportData !! i = Some (projected (mwc_message msg) c))
  \/ (Exists (fun msg => mwc_character msg = None) messages
      /\ get_room_export req st = (res_error 500 "Failed to export chat", st)).
Proof.
  intros Hsession Hu Hread.
  assert (Hhandler : get_room_export req st
            = match map_throwing exportEntry messages with
              | Ok exportData => (res_json (PExport exportData), st)
              | Throw _ => (res_error 500 "Failed to export chat", st)
              end).
  { unfold get_room_export, requireAuth. rewrite Hsession.
    destruct (Z.eqb_spec u 0) as [|_]; [contradiction|].
    cbv zeta. rewrite Hread. by destruct (map_throwing exportEntry messages). }
  rewrite Hhandler.
  destruct (map_throwing_exportEntry_cases messages)
    as [[Hall (exportData & -> & Hrest)] | [Hex ->]].
  - left. split; [exact Hall|]. by exists exportData.
  - right. by split.
Qed.

End Http_extras.

(** ** The dispatcher *)

Section Dispatcher_extras.
Context {S : Type} `{!Storage S} `{!MessageSchema}.
Implicit Types (w : World S) (ws : WebSocket) (message : WsMessage).

Lemma chat_message_unbound w ws message :
  m_type message = JStr (lit "chat_message") ->
  ToBoolean (optional_characterId (activeConnections w !! ws)) = false ->
  step (MessageEvent ws (ParsedObject message)) w
  = enqueue [(ws, ErrorNotice (lit "Not authenticated"))] w.
Proof.
  intros Htype Hunbound. unfold step, on_message, try_catch. rewrite Htype.
  destruct (decide (JStr (lit "chat_message") = JStr (lit "authenticate"))) as [Heq|_];
    [discriminate Heq|].
  destruct (decide (JStr (lit "chat_message") = JStr (lit "chat_message"))) as [_|Hne];
    [|congruence].
  unfold chat_message, mbind, M_bind, activeConnections_get.
  rewrite Hunbound. reflexivity.
Qed.

(** The message listener always handles a frame in one of the ways of
    [Handled]. *)
Lemma on_message_Handled w ws data :
  Handled w ws data (step (MessageEvent ws data) w).
Proof.
  destruct data as [| | |message].
  - apply Handled_malformed. by left.
  - apply Handled_malformed. by right.
  - apply Handled_primitive.
  - destruct (decide (m_type message = JStr (lit "authenticate"))) as [Hauth|Hauth].
    { rewrite authenticate_step by exact Hauth. by apply Handled_authenticate. }
    destruct (decide (m_type message = JStr (lit "chat_message"))) as [Hchat|Hchat].
    2: { replace (step (MessageEvent ws (ParsedObject message)) w) with w.
         - by apply Handled_other_type.
         - unfold step, on_message, try_catch.
           destruct (decide (m_type message = JStr (lit "authenticate"))); [contradiction|].
           destruct (decide (m_type message = JStr (lit "chat_message"))); [contradiction|].
           reflexivity. }
    destruct (ToBoolean (optional_characterId (activeConnections w !! ws))) eqn:Hbound.
    2: { rewrite chat_message_unbound by assumption. by apply Handled_unauthenticated. }
    destruct (activeConnections w !! ws) as [info|] eqn:Hget; [|discriminate Hbound].
    simpl in Hbound.
    rewrite (chat_message_bound w ws info message Hget Hbound Hchat). cbv zeta.
    fold (candidate info message).
    destruct (insertMessageSchema_parse (candidate info message)) as [validated|e] eqn:Hparse.
    2: { by eapply Handled_invalid. }
    destruct (createMessage validated (storage w)) as [[saved st']|e] eqn:Hcreate.
    2: { by eapply Handled_not_saved. }
    destruct (getCharacter (conn_characterId info) st') as [[character|]|e] eqn:Hchar.
    + by eapply Handled_broadcast.
    + by eapply Handled_unknown_character.
    + by eapply Handled_lookup_failed.
Qed.

(** Frames that are no command.  A frame that is not JSON, or is the JSON
    [null], is answered with one "Invalid message format" notice to its
    sender; any other frame that is not an object of type [authenticate] or
    [chat_message] is dropped without an answer.  Nothing else changes. *)
Theorem frames_that_are_no_command w ws :
  step (MessageEvent ws Unparseable) w
  = enqueue [(ws, ErrorNotice (lit "Invalid message format"))] w
  /\ step (MessageEvent ws ParsedNull) w
     = enqueue [(ws, ErrorNotice (lit "Invalid message format"))] w
  /\ step (MessageEvent ws ParsedPrimitive) w = w
  /\ forall message,
       m_type message <> JStr (lit "authenticate") ->
       m_type message <> JStr (lit "chat_message") ->
       step (MessageEvent ws (ParsedObject message)) w = w.
Proof.
  repeat split. intros message Hauth Hchat.
  unfold step, on_message, try_catch.
  destruct (decide (m_type message = JStr (lit "authenticate"))); [contradiction|].
  destruct (decide (m_type message = JStr (lit "chat_message"))); [contradiction|].
  reflexivity.
Qed.

(** How a [chat_message] of a bound connection fails.  When the schema or
    [storage.createMessage] throws, the sender gets one "Invalid message
    format" notice and nothing is stored or broadcast.  When the message is
    stored and [storage.getCharacter] throws, the message stays stored, the
    sender gets the same notice, and nothing is broadcast. *)
Theorem chat_message_failures w ws info message :
  m_type message = JStr (lit "chat_message") ->
  activeConnections w !! ws = Some info ->
  ToBoolean (conn_characterId info) = true ->
  let w' := step (MessageEvent ws (ParsedObject message)) w in
  let notice := [(ws, ErrorNotice (lit "Invalid message format"))] in
  ((exists e, insertMessageSchema_parse (candidate info message) = Throw e) ->
   w' = enqueue notice w)
  /\ (forall validated e,
        insertMessageSchema_parse (candidate info message) = Ok validated ->
        createMessage validated (storage w) = Throw e ->
        w' = enqueue notice w)
  /\ (forall validated saved st' e,
        insertMessageSchema_parse (candidate info message) = Ok validated ->
        createMessage validated (storage w) = Ok (saved, st') ->
        getCharacter (conn_characterId info) st' = Throw e ->
        w' = enqueue notice (set_storage st' w)).
Proof.
  intros Htype Hget Hbound w' notice. unfold w'.
  rewrite (chat_message_bound w ws info message Hget Hbound Htype). cbv zeta.
  fold (candidate info message). repeat split.
  - intros [e ->]. reflexivity.
  - intros validated e -> ->. reflexivity.
  - intros validated saved st' e -> -> ->. reflexivity.
Qed.

(** Who gets which frame.  Whatever the event, the frames already sent stay
    as they are, and every frame that the event adds is well addressed: an
    envelope goes to a socket of [wss.clients] that is open, and every other
    frame (the acknowledgement, an error notice) goes to the socket of the
    event, never to another connection. *)
Theorem frames_well_addressed w (ev : Event) :
  exists new,
    outbox (step ev w) = outbox w ++ new
    /\ Forall (well_addressed (event_socket ev) (clients w)) new.
Proof.
  destruct ev as [ws|ws data|ws|ws];
    try (exists []; split; [simpl; by rewrite app_nil_r | constructor]).
  pose proof (on_message_Handled w ws data) as Hhandled.
  simpl event_socket.
  remember (step (MessageEvent ws data) w) as w' eqn:Hw'. clear Hw'.
  destruct Hhandled;
    try (eexists; split; [reflexivity|]; repeat constructor; fail);
    try (exists []; split; [simpl; by rewrite app_nil_r | constructor]; fail).
  eexists. split; [reflexivity|].
  apply Forall_forall. intros [client frame] Hin.
  apply list_elem_of_fmap in Hin as [[c rs] [Heq Hin]].
  apply list_elem_of_filter in Hin as [Hopen Hin]. simpl in Heq, Hopen.
  injection Heq as -> ->. subst rs. exact Hin.
Qed.

(** What writes the storage.  An event leaves the storage as it is, unless
    it is a [chat_message] of a connection with a truthy bound
    [characterId]: then the storage is what one call of
    [storage.createMessage] returned, for the record that the schema made of
    the payload and the bound [characterId].  Connecting, closing and
    authenticating never write. *)
Theorem storage_written_by_chat_only w (ev : Event) :
  storage (step ev w) = storage w
  \/ exists ws message info validated saved,
       ev = MessageEvent ws (ParsedObject message)
       /\ m_type message = JStr (lit "chat_message")
       /\ activeConnections w !! ws = Some info
       /\ ToBoolean (conn_characterId info) = true
       /\ insertMessageSchema_parse (candidate info message) = Ok validated
       /\ createMessage validated (storage w) = Ok (saved, storage (step ev w)).
Proof.
  destruct ev as [ws|ws data|ws|ws]; try (left; reflexivity).
  pose proof (on_message_Handled w ws data) as Hhandled.
  remember (step (MessageEvent ws data) w) as w' eqn:Hw'. clear Hw'.
  destruct Hhandled; try (left; reflexivity);
    right; exists ws, message, info, validated, saved; simpl; auto 10.
Qed.

(** An [authenticate] without a usable [characterId] (absent, [null], [0],
    the empty string) is acknowledged with [success: true] like any other,
    and the [chat_message] that follows on the same socket is refused as not
    authenticated. *)
Theorem authenticate_without_character w ws (hello_frame chat_frame : WsMessage) :
  m_type hello_frame = JStr (lit "authenticate") ->
  ToBoolean (m_characterId hello_frame) = false ->
  m_type chat_frame = JStr (lit "chat_message") ->
  run [MessageEvent ws (ParsedObject hello_frame); MessageEvent ws (ParsedObject chat_frame)] w
  = enqueue [(ws, Authenticated true); (ws, ErrorNotice (lit "Not authenticated"))]
      (set_activeConnections
         (insert ws {| conn_userId := m_userId hello_frame;
                       conn_characterId := m_characterId hello_frame |}) w).
Proof.
  intros Hauth Hfalsy Hchat.
  change (run [?e1; ?e2] w) with (step e2 (step e1 w)).
  rewrite (authenticate_step w ws hello_frame Hauth).
  rewrite chat_message_unbound; [by rewrite enqueue_enqueue|exact Hchat|].
  simpl. by rewrite lookup_insert_eq.
Qed.

(** A connection can authenticate again: the second [authenticate] replaces
    the identity that the first one bound, and both are acknowledged. *)
Theorem reauthentication_overwrites w ws (first second : WsMessage) :
  m_type first = JStr (lit "authenticate") ->
  m_type second = JStr (lit "authenticate") ->
  run [MessageEvent ws (ParsedObject first); MessageEvent ws (ParsedObject second)] w
  = enqueue [(ws, Authenticated true); (ws, Authenticated true)]
      (set_activeConnections
         (insert ws {| conn_userId := m_userId second;
                       conn_characterId := m_characterId second |}) w).
Proof.
  intros Hfirst Hsecond.
  change (run [?e1; ?e2] w) with (step e2 (step e1 w)).
  rewrite (authenticate_step w ws first Hfirst), authenticate_step by exact Hsecond.
  unfold enqueue, set_activeConnections. simpl.
  by rewrite insert_insert_eq, <- app_assoc.
Qed.

Lemma step_keeps_unbound w (ev : Event) ws :
  authenticates ws ev = false ->
  activeConnections w !! ws = None ->
  activeConnections (step ev w) !! ws = None.
Proof.
  intros Hev Hnone.
  destruct (decide (event_socket ev = ws)) as [Hsame|Hother];
    [|by rewrite registry_entry_local].
  destruct ev as [ws'|ws' data|ws'|ws']; simpl in Hsame; subst ws'.
  - exact Hnone.
  - unfold step. rewrite on_message_registry.
    destruct data as [| | |message]; try exact Hnone.
    destruct (decide (m_type message = JStr (lit "authenticate"))) as [Hauth|_];
      [|exact Hnone].
    simpl in Hev. rewrite Hauth in Hev.
    rewrite !bool_decide_eq_true_2 in Hev by reflexivity. discriminate Hev.
  - exact Hnone.
  - simpl. apply lookup_delete_eq.
Qed.

(** Only an [authenticate] frame of a socket binds an identity to it.  A
    socket that has no entry, and sends no [authenticate] during a run of
    events (whatever the other sockets do meanwhile), has no entry after the
    run, and a [chat_message] it sends then is refused as not authenticated,
    with nothing stored. *)
Theorem never_authenticated_never_bound (es : list Event) w ws :
  activeConnections w !! ws = None ->
  Forall (fun ev => authenticates ws ev = false) es ->
  activeConnections (run es w) !! ws = None
  /\ forall message,
       m_type message = JStr (lit "chat_message") ->
       step (MessageEvent ws (ParsedObject message)) (run es w)
       = enqueue [(ws, ErrorNotice (lit "Not authenticated"))] (run es w).
Proof.
  intros Hnone Hes.
  assert (Hend : activeConnections (run es w) !! ws = None).
  { revert w Hnone. induction Hes as [|ev es Hev _ IH]; intros w Hnone; [exact Hnone|].
    change (run (ev :: es) w) with (run es (step ev w)).
    apply IH. by apply step_keeps_unbound. }
  split; [exact Hend|].
  intros message Hchat. apply chat_message_unbound; [exact Hchat|].
  by rewrite Hend.
Qed.

End Dispatcher_extras.

(** ** The account, character and room routes *)

Section Account_extras.
Context {S : Type} `{!AccountStorage S}.

Lemma requireAdmin_admin (next : User -> ApiHandler S) (req : ApiRequest) (st : S)
    (u : Z) (admin : User) :
  api_session_userId req = Some u -> u <> 0 ->
  getUser u st = Ok (Some admin) ->
  user_role admin = lit "admin" ->
  requireAdmin next req st = next admin req st.
Proof.
  intros Hsession Hu Huser Hrole. unfold requireAdmin. rewrite Hsession.
  destruct (Z.eqb_spec u 0) as [|_]; [contradiction|].
  rewrite Huser. by destruct (decide (user_role admin = lit "admin")).
Qed.

(** What [requireAdmin] lets through: when a route behind it answers or
    writes anything but a refusal, the session names a user that the storage
    knows with the role ["admin"], and the route ran for that user. *)
Lemma requireAdmin_cases (next : User -> ApiHandler S) (req : ApiRequest) (st : S) :
  requireAdmin next req st = Ok (api_error 401 "Unauthorized", st)
  \/ requireAdmin next req st = Ok (api_error 403 "Admin access required", st)
  \/ (exists e, requireAdmin next req st = Throw e)
  \/ exists u admin,
       api_session_userId req = Some u /\ u <> 0
       /\ getUser u st = Ok (Some admin)
       /\ user_role admin = lit "admin"
       /\ requireAdmin next req st = next admin req st.
Proof.
  unfold requireAdmin.
  destruct (api_session_userId req) as [u|]; [|by left].
  destruct (Z.eqb_spec u 0) as [|Hu]; [by left|].
  destruct (getUser u st) as [[admin|]|e] eqn:Huser;
    [|right; by left | right; right; left; by exists e].
  destruct (decide (user_role admin = lit "admin")) as [Hrole|_]; [|right; by left].
  right. right. right. by exists u, admin.
Qed.

(** The two routes of the administrators are closed to everybody else.
    Without a session they answer 401; with the session of a user that the
    storage does not know, or whose role is not ["admin"], they answer 403;
    in both cases the storage is left alone.  When [storage.getUser] throws,
    no response is sent at all. *)
Theorem admin_routes_gate (req : ApiRequest) (st : S) :
  (api_session_userId req = None \/ api_session_userId req = Some 0 ->
   patch_user_role req st = Ok (api_error 401 "Unauthorized", st)
   /\ post_invite_code req st = Ok (api_error 401 "Unauthorized", st))
  /\ (forall u,
        api_session_userId req = Some u -> u <> 0 ->
        getUser u st = Ok None
        \/ (exists user, getUser u st = Ok (Some user) /\ user_role user <> lit "admin") ->
        patch_user_role req st = Ok (api_error 403 "Admin access required", st)
        /\ post_invite_code req st = Ok (api_error 403 "Admin access required", st))
  /\ (forall u e,
        api_session_userId req = Some u -> u <> 0 ->
        getUser u st = Throw e ->
        patch_user_role req st = Throw e /\ post_invite_code req st = Throw e).
Proof.
  unfold patch_user_role, post_invite_code, requireAdmin. split; [|split].
  - by intros [-> | ->].
  - intros u Hsession Hu Huser. rewrite Hsession.
    destruct (Z.eqb_spec u 0) as [|_]; [contradiction|].
    destruct Huser as [-> | (user & -> & Hrole)]; [done|].
    by destruct (decide (user_role user = lit "admin")).
  - intros u e Hsession Hu Huser. rewrite Hsession.
    destruct (Z.eqb_spec u 0) as [|_]; [contradiction|]. by rewrite Huser.
Qed.

Lemma is_role_Some role r :
  is_role role = Some r -> role = JStr r /\ (r = lit "user" \/ r = lit "admin").
Proof.
  unfold is_role. destruct role as [| | | |s]; try discriminate.
  destruct (decide (s = lit "user")) as [->|_]; [intros [= <-]; auto|].
  destruct (decide (s = lit "admin")) as [->|_]; [intros [= <-]; auto|].
  discriminate.
Qed.

(** A role changes only at the hand of an administrator and only to
    ["user"] or ["admin"]: when [PATCH /api/users/:id/role] answers and the
    storage is not as before, the session is that of an administrator, the
    [role] of the body is one of the two strings, and the storage is what one
    call of [storage.updateUserRole] for that role returned. *)
Theorem role_update_needs_admin (req : ApiRequest) (st st' : S) (r : ApiResponse) :
  patch_user_role req st = Ok (r, st') ->
  st' = st
  \/ exists u admin role updated,
       api_session_userId req = Some u /\ u <> 0
       /\ getUser u st = Ok (Some admin)
       /\ user_role admin = lit "admin"
       /\ api_role req = JStr role
       /\ (role = lit "user" \/ role = lit "admin")
       /\ updateUserRole (parseInt (JStr (api_params_id req))) role st = Ok (updated, st').
Proof.
  unfold patch_user_role.
  destruct (requireAdmin_cases
              (fun _ req st =>
                 api_try_500 "Failed to update user role" st
                   match is_role (api_role req) with
                   | Some role =>
                       match updateUserRole (parseInt (JStr (api_params_id req))) role st with
                       | Ok (Some user, st') => Ok (api_json (ApiRoleUpdated user), st')
                       | Ok (None, st') => Ok (api_error 404 "User not found", st')
                       | Throw e => Throw e
                       end
                   | None => Ok (api_error 400 "Invalid role", st)
                   end) req st)
    as [-> | [-> | [[e ->] | (u & admin & Hsession & Hu & Huser & Hrole & ->)]]];
    try (intros [= <- <-]; by left); try discriminate.
  destruct (is_role (api_role req)) as [role|] eqn:Hvalid;
    [|intros [= <- <-]; by left].
  apply is_role_Some in Hvalid as [Hbody Hrole'].
  destruct (updateUserRole _ role st) as [[updated st'']|e] eqn:Hupdate;
    [|intros [= <- <-]; by left].
  intros Hanswer. right. exists u, admin, role, updated.
  assert (st'' = st') as -> by (destruct updated; by injection Hanswer).
  auto 10.
Qed.

(** A character is updated by its owner only.  [PATCH /api/characters/:id]
    always answers; for a character that does not exist or belongs to
    another user the answer is 403 "Access denied"; and when the storage is
    not as before, the character of the path belongs to the user of the
    session and the storage is what one call of [storage.updateCharacter]
    returned. *)
Theorem character_update_needs_owner (req : ApiRequest) (st : S) :
  exists r st',
    patch_character req st = Ok (r, st')
    /\ (forall u,
          api_session_userId req = Some u -> u <> 0 ->
          getCharacterAt (parseInt (JStr (api_params_id req))) st = Ok None
          \/ (exists c, getCharacterAt (parseInt (JStr (api_params_id req))) st = Ok (Some c)
                        /\ char_userId c <> u) ->
          r = api_error 403 "Access denied" /\ st' = st)
    /\ (st' = st
        \/ exists u c updated,
             api_session_userId req = Some u /\ u <> 0
             /\ getCharacterAt (parseInt (JStr (api_params_id req))) st = Ok (Some c)
             /\ char_userId c = u
             /\ updateCharacter (parseInt (JStr (api_params_id req))) (api_patch req) st
                = Ok (updated, st')).
Proof.
  unfold patch_character, api_requireAuth.
  destruct (api_session_userId req) as [u|];
    [|eexists _, _; split; [reflexivity|]; split; [discriminate | by left]].
  destruct (Z.eqb_spec u 0) as [->|Hu];
    [eexists _, _; split; [reflexivity|]; split;
       [intros u' [= <-] Hu'; contradiction | by left]|].
  cbv zeta.
  destruct (getCharacterAt _ st) as [[c|]|e] eqn:Hget.
  - destruct (decide (char_userId c = u)) as [Howner|Hother].
    + destruct (updateCharacter _ (api_patch req) st) as [[updated st'']|e] eqn:Hupdate.
      * exists (match updated with
                | Some updatedCharacter => api_json (ApiCharacter updatedCharacter)
                | None => api_error 404 "Character not found"
                end), st''.
        split; [by destruct updated|]. split.
        -- intros u' [= <-] _ [Hnone | (c' & Hsome & Hne)]; [discriminate|].
           injection Hsome as <-. contradiction.
        -- right. by exists u, c, updated.
      * eexists _, _. split; [reflexivity|]. split; [|by left].
        intros u' [= <-] _ [Hnone | (c' & Hsome & Hne)]; [discriminate|].
        injection Hsome as <-. contradiction.
    + eexists _, _. split; [reflexivity|]. split; [auto | by left].
  - eexists _, _. split; [reflexivity|]. split; [auto | by left].
  - eexists _, _. split; [reflexivity|]. split; [|by left].
    intros u' _ _ [Hnone | (c' & Hsome & _)]; discriminate.
Qed.

(** The rules of [POST /api/admin/invite-codes] for an administrator.  A
    falsy code and a string of fewer than 6 code units are refused with 400
    before the storage is asked.  The code [true] and a number other than 0
    have no [length], and [undefined < 6] is false: they pass the test, as a
    string of 6 code units or more does.  A code that passes is refused with
    400 when the storage has it already, and created otherwise; an exception
    of the storage is answered with 500. *)
Theorem invite_code_rules (req : ApiRequest) (st : S) (u : Z) (admin : User) :
  api_session_userId req = Some u -> u <> 0 ->
  getUser u st = Ok (Some admin) ->
  user_role admin = lit "admin" ->
  let too_short := api_error 400 "Invite code must be at least 6 characters long" in
  (ToBoolean (api_code req) = false -> post_invite_code req st = Ok (too_short, st))
  /\ (forall s, api_code req = JStr s -> len s < 6 ->
        post_invite_code req st = Ok (too_short, st))
  /\ (api_code req = JBool true
      \/ (exists n, api_code req = JNum n /\ n <> 0)
      \/ (exists s, api_code req = JStr s /\ 6 <= len s) ->
      post_invite_code req st
      = match getInviteCode (api_code req) st with
        | Throw _ => Ok (api_error 500 "Failed to create invite code", st)
        | Ok (Some _) => Ok (api_error 400 "Invite code already exists", st)
        | Ok None =>
            match createInviteCode (api_code req) st with
            | Throw _ => Ok (api_error 500 "Failed to create invite code", st)
            | Ok (inviteCode, st') => Ok (api_json (ApiInviteCode inviteCode), st')
            end
        end).
Proof.
  intros Hsession Hu Huser Hrole too_short.
  unfold post_invite_code.
  rewrite (requireAdmin_admin _ req st u admin Hsession Hu Huser Hrole). cbv zeta.
  repeat split.
  - intros ->. reflexivity.
  - intros s -> Hshort. simpl. destruct (bool_decide (s = [])); simpl; [reflexivity|].
    fold (len s). by destruct (Z.ltb_spec (len s) 6); [|lia].
  - intros [-> | [(n & -> & Hn) | (s & -> & Hlong)]]; simpl.
    + destruct (getInviteCode _ st) as [[existing|]|e]; try reflexivity.
      by destruct (createInviteCode _ st) as [[ic st']|e].
    + destruct (Z.eqb_spec n 0) as [|_]; [contradiction|]. simpl.
      destruct (getInviteCode _ st) as [[existing|]|e]; try reflexivity.
      by destruct (createInviteCode _ st) as [[ic st']|e].
    + assert (Hnil : bool_decide (s = []) = false).
      { apply bool_decide_eq_false. intros ->. vm_compute in Hlong. by apply Hlong. }
      rewrite Hnil. simpl. fold (len s).
      destruct (Z.ltb_spec (len s) 6); [lia|].
      destruct (getInviteCode _ st) as [[existing|]|e]; try reflexivity.
      by destruct (createInviteCode _ st) as [[ic st']|e].
Qed.

(** *** The default rooms *)

Lemma room_names_differ : main_room_name <> test_room_name.
Proof. discriminate. Qed.

Section Room_laws.

(** What the start-up function relies on: a room that was created is found
    by its name, and creating a room does not change what the lookup of
    another name gives. *)
Hypothesis created_is_found : forall ins st r st',
  createChatRoom ins st = Ok (r, st') ->
  exists r', getChatRoomByName (new_name ins) st' = Ok (Some r').

Hypothesis created_keeps_others : forall ins st r st' name,
  createChatRoom ins st = Ok (r, st') ->
  name <> new_name ins ->
  getChatRoomByName name st' = getChatRoomByName name st.

Lemma ensure_room_found name description st r :
  getChatRoomByName name st = Ok (Some r) ->
  ensure_room name description st = Ok st.
Proof. intros Hfound. unfold ensure_room. by rewrite Hfound. Qed.

(** After a block completed, its room is found, and the lookup of another
    name gives what it gave before. *)
Lemma ensure_room_Ok name description st st' :
  ensure_room name description st = Ok st' ->
  (exists r, getChatRoomByName name st' = Ok (Some r))
  /\ forall other, other <> name ->
       getChatRoomByName other st' = getChatRoomByName other st.
Proof.
  unfold ensure_room.
  destruct (getChatRoomByName name st) as [[r|]|e] eqn:Hlookup; [| |discriminate].
  - intros [= <-]. split; [by exists r | reflexivity].
  - destruct (createChatRoom _ st) as [[r st'']|e] eqn:Hcreate; [|discriminate].
    intros [= <-]. split.
    + apply (created_is_found _ _ _ _ Hcreate).
    + intros other Hother. by apply (created_keeps_others _ _ _ _ _ Hcreate).
Qed.

(** Creating the default rooms is idempotent after a start-up that
    completed: when both blocks of the first start-up met no exception, a
    second start-up on the storage it left finds both rooms, so that it
    creates nothing and changes nothing.  A first start-up that stopped at
    an exception is not covered: what the next one does then depends on
    whether the storage fails again. *)
Theorem initialize_rooms_idempotent (st st1 st2 : S) :
  ensure_room main_room_name main_room_description st = Ok st1 ->
  ensure_room test_room_name test_room_description st1 = Ok st2 ->
  initialize_rooms st = st2
  /\ (exists r, getChatRoomByName main_room_name st2 = Ok (Some r))
  /\ (exists r, getChatRoomByName test_room_name st2 = Ok (Some r))
  /\ ensure_room main_room_name main_room_description st2 = Ok st2
  /\ ensure_room test_room_name test_room_description st2 = Ok st2
  /\ initialize_rooms (initialize_rooms st) = initialize_rooms st.
Proof.
  intros Hmain Htest.
  assert (Hfirst : initialize_rooms st = st2).
  { unfold initialize_rooms. by rewrite Hmain, Htest. }
  destruct (ensure_room_Ok _ _ _ _ Hmain) as [[r Hfound] _].
  destruct (ensure_room_Ok _ _ _ _ Htest) as [[r' Hfound'] Hothers].
  assert (Hmain' : getChatRoomByName main_room_name st2 = Ok (Some r)).
  { rewrite Hothers; [exact Hfound | apply room_names_differ]. }
  split; [exact Hfirst|].
  split; [by exists r|]. split; [by exists r'|].
  split; [exact (ensure_room_found _ _ _ _ Hmain')|].
  split; [exact (ensure_room_found _ _ _ _ Hfound')|].
  rewrite Hfirst. unfold initialize_rooms.
  by rewrite (ensure_room_found _ _ _ _ Hmain'), (ensure_room_found _ _ _ _ Hfound').
Qed.

(** When the start-up function meets no exception, both default rooms are
    found by name afterwards. *)
Theorem initialize_rooms_creates_both (st st1 : S) :
  ensure_room main_room_name main_room_description st = Ok st1 ->
  (exists st2, ensure_room test_room_name test_room_description st1 = Ok st2) ->
  (exists r, getChatRoomByName main_room_name (initialize_rooms st) = Ok (Some r))
  /\ (exists r, getChatRoomByName test_room_name (initialize_rooms st) = Ok (Some r)).
Proof.
  intros Hmain [st2 Htest].
  assert (initialize_rooms st = st2) as -> by (unfold initialize_rooms; by rewrite Hmain, Htest).
  destruct (ensure_room_Ok _ _ _ _ Hmain) as [[r Hfound] _].
  destruct (ensure_room_Ok _ _ _ _ Htest) as [Hfound' Hothers].
  split; [|exact Hfound'].
  exists r. rewrite Hothers; [exact Hfound | apply room_names_differ].
Qed.

End Room_laws.

End Account_extras.

(** ** The registration form *)

Lemma validateStep1_true (s : Registration) :
  (validateStep1 s).1 = true <-> account_valid (reg_formData s).
Proof.
  unfold validateStep1, account_valid, is_empty.
  repeat match goal with
  | |- context [bool_decide (?a = ?b)] => destruct (decide (a = b)) as [?|?];
      [rewrite (bool_decide_eq_true_2 (a = b)) by assumption
      |rewrite (bool_decide_eq_false_2 (a = b)) by assumption]
  end; simpl; try (split; [discriminate | intros (? & ? & ? & ? & ? & ? & ?); congruence]).
  destruct (Z.ltb_spec (len (fd_password (reg_formData s))) 6); simpl.
  - split; [discriminate | intros (? & ? & ? & ? & ? & ? & ?); lia].
  - split; [intros _; repeat split; assumption | reflexivity].
Qed.

Lemma validateStep1_state (s : Registration) :
  reg_step (validateStep1 s).2 = reg_step s
  /\ reg_formData (validateStep1 s).2 = reg_formData s
  /\ reg_registered (validateStep1 s).2 = reg_registered s.
Proof.
  unfold validateStep1.
  repeat match goal with |- context [if ?b then _ else _] => destruct b end;
    repeat split.
Qed.

(** What the component keeps true, whatever the user does: it is on step 1
    or 2; while it is on step 2 the account part of the form passes
    [validateStep1]; and every form that [register] was called with was
    complete. *)
Lemma ui_step_invariant (e : UiEvent) (s : Registration) :
  (reg_step s = 1 \/ (reg_step s = 2 /\ account_valid (reg_formData s))) ->
  Forall (fun d => account_valid d /\ character_valid d) (reg_registered s) ->
  (reg_step (ui_step e s) = 1
   \/ (reg_step (ui_step e s) = 2 /\ account_valid (reg_formData (ui_step e s))))
  /\ Forall (fun d => account_valid d /\ character_valid d) (reg_registered (ui_step e s)).
Proof.
  intros [Hstep | [Hstep Hvalid]] Hcalls; unfold ui_step; rewrite Hstep; simpl.
  - destruct e as [field value| | |settled]; try (split; [by left | exact Hcalls]).
    + destruct (on_step1 field); (split; [by left | exact Hcalls]).
    + unfold handleStep1Submit.
      pose proof (validateStep1_true s) as Htrue.
      destruct (validateStep1_state s) as (Hs & Hd & Hr).
      destruct (validateStep1 s) as [valid s']. simpl in *.
      destruct valid; simpl.
      * split; [right; split; [reflexivity | rewrite Hd; by apply Htrue] | by rewrite Hr].
      * split; [left; by rewrite Hs | by rewrite Hr].
  - destruct e as [field value| | |settled]; try (split; [by right | exact Hcalls]).
    + destruct field; simpl; (split; [by right | exact Hcalls]).
    + split; [by left | exact Hcalls].
    + unfold handleRegistration, is_empty.
      destruct (decide (fd_firstName (reg_formData s) = [])) as [Hf|Hf];
        [rewrite bool_decide_eq_true_2 by exact Hf; simpl; split; [by right | exact Hcalls]|].
      destruct (decide (fd_lastName (reg_formData s) = [])) as [Hl|Hl];
        [rewrite (bool_decide_eq_true_2 (fd_lastName _ = _)) by exact Hl;
         rewrite orb_true_r; simpl; split; [by right | exact Hcalls]|].
      destruct (decide (fd_birthDate (reg_formData s) = [])) as [Hb|Hb];
        [rewrite (bool_decide_eq_true_2 (fd_birthDate _ = _)) by exact Hb;
         rewrite orb_true_r; simpl; split; [by right | exact Hcalls]|].
      rewrite !bool_decide_eq_false_2 by assumption. simpl.
      assert (Hcalls' : Forall (fun d => account_valid d /\ character_valid d)
                          (reg_registered s ++ [reg_formData s])).
      { apply Forall_app. split; [exact Hcalls|].
        apply Forall_singleton. split; [exact Hvalid | by repeat split]. }
      destruct settled; simpl; (split; [by right | exact Hcalls']).
Qed.

(** [register] is only ever called with a complete form.  From the initial
    state of the component and for every sequence of changes, submits and
    clicks on "back", each form data that [register] was called with has the
    five account fields filled in, equal passwords of at least 6 code units,
    and a first name, a last name and a birth date. *)
Theorem register_called_with_complete_form (es : list UiEvent) :
  Forall (fun d => account_valid d /\ character_valid d)
    (reg_registered (ui_run es Registration_initial)).
Proof.
  assert (Hgen : forall s,
            (reg_step s = 1 \/ (reg_step s = 2 /\ account_valid (reg_formData s))) ->
            Forall (fun d => account_valid d /\ character_valid d) (reg_registered s) ->
            Forall (fun d => account_valid d /\ character_valid d)
              (reg_registered (ui_run es s))).
  { induction es as [|e es IH]; intros s Hstep Hcalls; [exact Hcalls|].
    change (ui_run (e :: es) s) with (ui_run es (ui_step e s)).
    destruct (ui_step_invariant e s Hstep Hcalls) as [Hstep' Hcalls'].
    by apply IH. }
  apply Hgen; [by left | constructor].
Qed.

(** The second step is reached through a valid first step only, and going
    back keeps it valid: whenever the component shows step 2, the account
    part of the form passes [validateStep1], because the account inputs are
    not on screen there. *)
Theorem step2_has_valid_account (es : list UiEvent) :
  reg_step (ui_run es Registration_initial) = 2 ->
  account_valid (reg_formData (ui_run es Registration_initial)).
Proof.
  assert (Hgen : forall s,
            (reg_step s = 1 \/ (reg_step s = 2 /\ account_valid (reg_formData s))) ->
            Forall (fun d => account_valid d /\ character_valid d) (reg_registered s) ->
            reg_step (ui_run es s) = 1
            \/ (reg_step (ui_run es s) = 2 /\ account_valid (reg_formData (ui_run es s)))).
  { induction es as [|e es IH]; intros s Hstep Hcalls; [exact Hstep|].
    change (ui_run (e :: es) s) with (ui_run es (ui_step e s)).
    destruct (ui_step_invariant e s Hstep Hcalls) as [Hstep' Hcalls'].
    by apply IH. }
  intros Hstep2.
  destruct (Hgen Registration_initial) as [H1 | [_ Hvalid]];
    [by left | constructor | congruence | exact Hvalid].
Qed.

(** ** Registration and login *)

Section Auth_extras.
Context {S B : Type} `{!AccountStorage S} `{!AuthStorage S} `{!AuthSchemas B}.

Ltac run_route :=
  unfold post_login, post_register, auth_catch, mbind, Act_bind, mret, Act_ret,
    reads, writes, parses, set_session; cbn [srv_storage srv_session].

(** A login writes nothing to the storage, and it sets the session only for
    credentials that [storage.validateUser] accepted, to the id of that
    user.  In every other case (a body that the schema refuses, unknown
    credentials, an exception of the storage) the session is as before and
    the answer is not a 200. *)
Theorem login_sets_session_for_valid_credentials_only (body : B) (srv : Server S) :
  srv_storage (post_login body srv).2 = srv_storage srv
  /\ ((srv_session (post_login body srv).2 = srv_session srv
       /\ api_status (post_login body srv).1 <> 200)
      \/ exists data user,
           loginSchema_parse body = Ok data
           /\ validateUser (ld_username data) (ld_password data) (srv_storage srv)
              = Ok (Some user)
           /\ srv_session (post_login body srv).2 = Some (user_id user)).
Proof.
  run_route.
  destruct (loginSchema_parse body) as [data|e] eqn:Hparse;
    [|destruct e; (split; [reflexivity | left; split; [reflexivity | discriminate]])].
  destruct (validateUser _ _ (srv_storage srv)) as [[user|]|e] eqn:Hvalid;
    [| split; [reflexivity | left; split; [reflexivity | discriminate]]
     | destruct e; (split; [reflexivity | left; split; [reflexivity | discriminate]])].
  destruct (getCharactersByUserId (user_id user) (srv_storage srv)) as [characters|e];
    [|destruct e]; (split; [reflexivity | right; by exists data, user]).
Qed.

(** A registration that is refused writes nothing and does not log in: when
    the user name is taken, when the e-mail is taken, and when the invite
    code is unknown or used, the answer is the 400 of that test, in this
    order, and the storage and the session are as before. *)
Theorem register_refusals_write_nothing (body : B) (srv : Server S) (data : RegistrationData) :
  registrationSchema_parse body = Ok data ->
  ((exists u, getUserByUsername (rd_username data) (srv_storage srv) = Ok (Some u)) ->
   post_register body srv = (api_error 400 "Username already exists", srv))
  /\ (getUserByUsername (rd_username data) (srv_storage srv) = Ok None ->
      (exists u, getUserByEmail (rd_email data) (srv_storage srv) = Ok (Some u)) ->
      post_register body srv = (api_error 400 "Email already exists", srv))
  /\ (getUserByUsername (rd_username data) (srv_storage srv) = Ok None ->
      getUserByEmail (rd_email data) (srv_storage srv) = Ok None ->
      getInviteCode (JStr (rd_inviteCode data)) (srv_storage srv) = Ok None
      \/ (exists ic, getInviteCode (JStr (rd_inviteCode data)) (srv_storage srv) = Ok (Some ic)
                     /\ ic_isUsed ic = true) ->
      post_register body srv = (api_error 400 "Invalid or already used invite code", srv)).
Proof.
  intros Hparse. run_route. rewrite Hparse. split; [|split].
  - intros [u ->]. reflexivity.
  - intros -> [u ->]. reflexivity.
  - intros -> -> [-> | (ic & -> & ->)]; reflexivity.
Qed.

(** A registration logs in only when it succeeded.  Either the session is as
    before and the answer is not a 200; or the answer is the 200 for a new
    user with the role ["user"], whose name and e-mail were free and whose
    invite code was known and unused, the storage went through
    [createUser], [useInviteCode] and [createCharacter] in this order, and
    the session holds the id of the new user. *)
Theorem register_logs_in_on_success_only (body : B) (srv : Server S) :
  (srv_session (post_register body srv).2 = srv_session srv
   /\ api_status (post_register body srv).1 <> 200)
  \/ exists data ic hashed user st1 st2 character st3,
       registrationSchema_parse body = Ok data
       /\ getUserByUsername (rd_username data) (srv_storage srv) = Ok None
       /\ getUserByEmail (rd_email data) (srv_storage srv) = Ok None
       /\ getInviteCode (JStr (rd_inviteCode data)) (srv_storage srv) = Ok (Some ic)
       /\ ic_isUsed ic = false
       /\ hashPassword (rd_password data) (srv_storage srv) = Ok hashed
       /\ createUser {| nu_username := rd_username data;
                        nu_email := rd_email data;
                        nu_password := hashed;
                        nu_role := lit "user" |} (srv_storage srv) = Ok (user, st1)
       /\ useInviteCode (rd_inviteCode data) (user_id user) st1 = Ok st2
       /\ createCharacter {| nc_userId := user_id user;
                             nc_firstName := rd_firstName data;
                             nc_middleName := rd_middleName data;
                             nc_lastName := rd_lastName data;
                             nc_birthDate := rd_birthDate data |} st2 = Ok (character, st3)
       /\ post_register body srv
          = (api_json (ApiAccount user [character]),
             {| srv_storage := st3; srv_session := Some (user_id user) |}).
Proof.
  run_route.
  destruct (registrationSchema_parse body) as [data|e] eqn:Hparse;
    [|destruct e; (left; split; [reflexivity | discriminate])].
  destruct (getUserByUsername _ (srv_storage srv)) as [[existing|]|e] eqn:Hname;
    [left; split; [reflexivity | discriminate]|
    |destruct e; (left; split; [reflexivity | discriminate])].
  destruct (getUserByEmail _ (srv_storage srv)) as [[existing|]|e] eqn:Hemail;
    [left; split; [reflexivity | discriminate]|
    |destruct e; (left; split; [reflexivity | discriminate])].
  destruct (getInviteCode _ (srv_storage srv)) as [[ic|]|e] eqn:Hcode;
    [|left; split; [reflexivity | discriminate]
     |destruct e; (left; split; [reflexivity | discriminate])].
  destruct (ic_isUsed ic) eqn:Hused; [left; split; [reflexivity | discriminate]|].
  destruct (hashPassword _ (srv_storage srv)) as [hashed|e] eqn:Hhash;
    [|destruct e; (left; split; [reflexivity | discriminate])].
  destruct (createUser _ (srv_storage srv)) as [[user st1]|e] eqn:Hcreate;
    [|destruct e; (left; split; [reflexivity | discriminate])].
  cbn [srv_storage srv_session].
  destruct (useInviteCode _ _ st1) as [st2|e] eqn:Huse;
    [|destruct e; (left; split; [reflexivity | discriminate])].
  cbn [srv_storage srv_session].
  destruct (createCharacter _ st2) as [[character st3]|e] eqn:Hchar;
    [|destruct e; (left; split; [reflexivity | discriminate])].
  right. exists data, ic, hashed, user, st1, st2, character, st3. auto 12.
Qed.

(** A registration is not atomic.  When the user was created and
    [storage.useInviteCode] throws, the answer is the 500 (or the 400 of a
    [ZodError]) of the [catch], the session is not logged in, and the storage
    keeps the new user: nothing is rolled back, and the invite code stays
    unused. *)
Theorem register_keeps_user_when_invite_fails (body : B) (srv : Server S)
    (data : RegistrationData) (ic : InviteCode) (hashed : jstring) (user : User)
    (st1 : S) (e : Exn) :
  registrationSchema_parse body = Ok data ->
  getUserByUsername (rd_username data) (srv_storage srv) = Ok None ->
  getUserByEmail (rd_email data) (srv_storage srv) = Ok None ->
  getInviteCode (JStr (rd_inviteCode data)) (srv_storage srv) = Ok (Some ic) ->
  ic_isUsed ic = false ->
  hashPassword (rd_password data) (srv_storage srv) = Ok hashed ->
  createUser {| nu_username := rd_username data;
                nu_email := rd_email data;
                nu_password := hashed;
                nu_role := lit "user" |} (srv_storage srv) = Ok (user, st1) ->
  useInviteCode (rd_inviteCode data) (user_id user) st1 = Throw e ->
  post_register body srv
  = (match e with
     | ZodError => {| api_status := 400; api_payload := ApiInvalidInput |}
     | _ => api_error 500 "Registration failed"
     end,
     {| srv_storage := st1; srv_session := srv_session srv |}).
Proof.
  intros Hparse Hname Hemail Hcode Hused Hhash Hcreate Huse.
  run_route. rewrite Hparse, Hname, Hemail, Hcode, Hused, Hhash, Hcreate.
  cbn [srv_storage srv_session]. rewrite Huse.
  by destruct e.
Qed.

End Auth_extras.

(** ** Examples of the further properties *)

(** A request without session, on the sample store. *)
Lemma anonymous_gets_401 :
  get_room_messages anonymous_request sample_store = (res_error 401 "Unauthorized", sample_store)
  /\ get_messages anonymous_request sample_store = (res_error 401 "Unauthorized", sample_store)
  /\ post_messages anonymous_request sample_store = (res_error 401 "Unauthorized", sample_store)
  /\ get_room_export anonymous_request sample_store
     = (res_error 401 "Unauthorized", sample_store).
Proof. apply chat_routes_require_session. left. reflexivity. Defined.

(** A read with no [roomId] in the query. *)
Lemma read_without_room_gets_400 :
  get_messages (post_request 1 (post_body (lit "hello"))) sample_store
  = (res_error 400 "roomId is required", sample_store).
Proof.
  apply (get_messages_requires_roomId _ sample_store 1).
  - reflexivity.
  - lia.
  - left. reflexivity.
Defined.

(** [roomId: 0] is answered with 400, the content [7] with 500. *)
Lemma zero_room_and_numeric_content :
  post_messages (post_request 1 odd_body) sample_store
  = (res_error 400 "roomId, characterId, and content are required", sample_store)
  /\ post_messages (post_request 1 numeric_content_body) sample_store
     = (res_error 500 "Failed to create message", sample_store).
Proof.
  split.
  - apply (post_messages_refused_bodies (post_request 1 odd_body) sample_store 1);
      [reflexivity | lia | left; reflexivity].
  - apply (post_messages_refused_bodies (post_request 1 numeric_content_body) sample_store 1);
      [reflexivity | lia | reflexivity | reflexivity | reflexivity | discriminate].
Defined.

(** The export of room 1 of [three_messages] is complete. *)
Lemma export_of_three_messages_complete :
  (Forall (fun msg => is_Some (mwc_character msg))
     (with_character three_messages <$> room_log 1 three_messages)
   /\ exists exportData,
        get_room_export (read_request "1" JUndefined JUndefined) three_messages
        = (res_json (PExport exportData), three_messages)
        /\ length exportData
           = length (with_character three_messages <$> room_log 1 three_messages)
        /\ forall i msg,
             (with_character three_messages <$> room_log 1 three_messages) !! i = Some msg ->
             exists c, mwc_character msg = Some c
                       /\ exportData !! i = Some (projected (mwc_message msg) c))
  \/ (Exists (fun msg => mwc_character msg = None)
        (with_character three_messages <$> room_log 1 three_messages)
      /\ get_room_export (read_request "1" JUndefined JUndefined) three_messages
         = (res_error 500 "Failed to export chat", three_messages)).
Proof.
  apply (export_all_or_nothing (read_request "1" JUndefined JUndefined) three_messages 1).
  - reflexivity.
  - lia.
  - reflexivity.
Defined.

(** A frame of an unknown type is dropped. *)
Lemma ping_is_dropped :
  step (MessageEvent 1%nat (ParsedObject ping)) two_connected = two_connected.
Proof.
  destruct (frames_that_are_no_command two_connected 1%nat) as (_ & _ & _ & Hother).
  apply Hother; discriminate.
Defined.

(** A blank [chat_message] of an authenticated connection: the schema
    refuses it. *)
Lemma blank_chat_is_refused :
  step (MessageEvent 1%nat (ParsedObject blank_chat)) (first_authenticated 1)
  = enqueue [(1%nat, ErrorNotice (lit "Invalid message format"))] (first_authenticated 1).
Proof.
  destruct (chat_message_failures (first_authenticated 1) 1%nat
              {| conn_userId := JNum 1; conn_characterId := JNum 1 |} blank_chat)
    as (Hinvalid & _).
  - reflexivity.
  - reflexivity.
  - reflexivity.
  - apply Hinvalid. exists ZodError. reflexivity.
Defined.

(** An [authenticate] with no [characterId], then [hello]. *)
Lemma authenticate_then_chat_refused :
  run [MessageEvent 1%nat (ParsedObject (authenticate_message (JNum 1) JUndefined));
       MessageEvent 1%nat (ParsedObject hello)] two_connected
  = enqueue [(1%nat, Authenticated true); (1%nat, ErrorNotice (lit "Not authenticated"))]
      (set_activeConnections
         (insert 1%nat {| conn_userId := JNum 1; conn_characterId := JUndefined |})
         two_connected).
Proof. apply authenticate_without_character; reflexivity. Defined.

(** Socket 1 authenticates as character 1, then as character 2. *)
Lemma second_identity_wins :
  run [MessageEvent 1%nat (ParsedObject (authenticate_message (JNum 1) (JNum 1)));
       MessageEvent 1%nat (ParsedObject (authenticate_message (JNum 1) (JNum 2)))]
    two_connected
  = enqueue [(1%nat, Authenticated true); (1%nat, Authenticated true)]
      (set_activeConnections
         (insert 1%nat {| conn_userId := JNum 1; conn_characterId := JNum 2 |})
         two_connected).
Proof. apply reauthentication_overwrites; reflexivity. Defined.

(** While socket 1 authenticates, talks and leaves, socket 2 stays
    unbound. *)
Lemma silent_socket_stays_unbound :
  activeConnections
    (run [Connection 1%nat; Connection 2%nat;
          MessageEvent 1%nat (ParsedObject (authenticate_message (JNum 1) (JNum 1)));
          MessageEvent 1%nat (ParsedObject hello);
          MessageEvent 2%nat (ParsedObject ping);
          Close 1%nat] (initial_world sample_store)) !! 2%nat = None.
Proof.
  apply (never_authenticated_never_bound
           [Connection 1%nat; Connection 2%nat;
            MessageEvent 1%nat (ParsedObject (authenticate_message (JNum 1) (JNum 1)));
            MessageEvent 1%nat (ParsedObject hello);
            MessageEvent 2%nat (ParsedObject ping);
            Close 1%nat] (initial_world sample_store) 2%nat).
  - reflexivity.
  - repeat constructor.
Defined.

(** User 2 is no administrator. *)
Lemma user_is_no_admin :
  patch_user_role (api_request 2 "1" (JStr (lit "user")) (JStr (lit "FREEPASS"))) sample_accounts
  = Ok (api_error 403 "Admin access required", sample_accounts)
  /\ post_invite_code (api_request 2 "1" (JStr (lit "user")) (JStr (lit "FREEPASS")))
       sample_accounts
     = Ok (api_error 403 "Admin access required", sample_accounts).
Proof.
  destruct (admin_routes_gate
              (api_request 2 "1" (JStr (lit "user")) (JStr (lit "FREEPASS"))) sample_accounts)
    as (_ & Hforbidden & _).
  apply (Hforbidden 2); [reflexivity | lia |].
  right. eexists. split; [reflexivity | discriminate].
Defined.

(** The administrator promotes user 2. *)
Lemma admin_promotes_user :
  promoted_accounts = sample_accounts
  \/ exists u admin role updated,
       api_session_userId (api_request 1 "2" (JStr (lit "admin")) JUndefined) = Some u
       /\ u <> 0
       /\ getUser u sample_accounts = Ok (Some admin)
       /\ user_role admin = lit "admin"
       /\ api_role (api_request 1 "2" (JStr (lit "admin")) JUndefined) = JStr role
       /\ (role = lit "user" \/ role = lit "admin")
       /\ updateUserRole
            (parseInt (JStr (api_params_id (api_request 1 "2" (JStr (lit "admin")) JUndefined))))
            role sample_accounts
          = Ok (updated, promoted_accounts).
Proof.
  apply (role_update_needs_admin (api_request 1 "2" (JStr (lit "admin")) JUndefined)
           sample_accounts promoted_accounts (api_json (ApiRoleUpdated jan_admin))).
  reflexivity.
Defined.

(** User 1, who owns [ann], may not update [bob]. *)
Lemma ann_cannot_edit_bob :
  patch_character (api_request 1 "2" JUndefined JUndefined) sample_accounts
  = Ok (api_error 403 "Access denied", sample_accounts).
Proof.
  destruct (character_update_needs_owner
              (api_request 1 "2" JUndefined JUndefined) sample_accounts)
    as (r & st' & Hanswer & Hdenied & _).
  destruct (Hdenied 1) as [-> ->]; [reflexivity | lia | | exact Hanswer].
  right. exists bob. split; [reflexivity | discriminate].
Defined.

(** The code ["abc"] is too short; the code ["WELCOME2024"] exists. *)
Lemma short_and_known_codes_refused :
  post_invite_code (api_request 1 "" JUndefined (JStr (lit "abc"))) sample_accounts
  = Ok (api_error 400 "Invite code must be at least 6 characters long", sample_accounts)
  /\ post_invite_code (api_request 1 "" JUndefined (JStr (lit "WELCOME2024"))) sample_accounts
     = Ok (api_error 400 "Invite code already exists", sample_accounts).
Proof.
  split.
  - destruct (invite_code_rules (api_request 1 "" JUndefined (JStr (lit "abc")))
                sample_accounts 1
                {| user_id := 1; user_username := lit "admin";
                   user_email := lit "admin@rpg-realm.cz"; user_role := lit "admin" |})
      as (_ & Hshort & _); [reflexivity | lia | reflexivity | reflexivity |].
    apply (Hshort (lit "abc")); [reflexivity | vm_compute; reflexivity].
  - destruct (invite_code_rules (api_request 1 "" JUndefined (JStr (lit "WELCOME2024")))
                sample_accounts 1
                {| user_id := 1; user_username := lit "admin";
                   user_email := lit "admin@rpg-realm.cz"; user_role := lit "admin" |})
      as (_ & _ & Hlong); [reflexivity | lia | reflexivity | reflexivity |].
    rewrite Hlong; [reflexivity|].
    right. right. exists (lit "WELCOME2024"). split; [reflexivity|].
    vm_compute. discriminate.
Defined.

(** The room table of the examples keeps the two laws of the start-up
    function. *)
Lemma find_snoc_hit {A : Type} (p : A -> bool) (l : list A) (x : A) :
  p x = true -> exists y, List.find p (l ++ [x]) = Some y.
Proof.
  intros Hx. induction l as [|a l IH]; simpl.
  - rewrite Hx. by exists x.
  - destruct (p a); [by exists a | exact IH].
Qed.

Lemma find_snoc_miss {A : Type} (p : A -> bool) (l : list A) (x : A) :
  p x = false -> List.find p (l ++ [x]) = List.find p l.
Proof.
  intros Hx. induction l as [|a l IH]; simpl.
  - by rewrite Hx.
  - destruct (p a); [reflexivity | exact IH].
Qed.

Lemma Accounts_created_is_found (ins : InsertChatRoom) (st : Accounts) (r : ChatRoom)
    (st' : Accounts) :
  createChatRoom ins st = Ok (r, st') ->
  exists r', getChatRoomByName (new_name ins) st' = Ok (Some r').
Proof.
  intros [= <- <-]. cbn.
  unfold Accounts_getChatRoomByName. cbn.
  destruct (find_snoc_hit (fun r => bool_decide (room_name r = new_name ins)) (acc_rooms st)
              {| room_id := Z.of_nat (length (acc_rooms st)) + 1;
                 room_name := new_name ins;
                 room_description := new_description ins;
                 room_isPublic := new_isPublic ins |}) as [y ->].
  - by apply bool_decide_eq_true_2.
  - by exists y.
Qed.

Lemma Accounts_created_keeps_others (ins : InsertChatRoom) (st : Accounts) (r : ChatRoom)
    (st' : Accounts) (name : jstring) :
  createChatRoom ins st = Ok (r, st') ->
  name <> new_name ins ->
  getChatRoomByName name st' = getChatRoomByName name st.
Proof.
  intros [= <- <-] Hname. cbn.
  unfold Accounts_getChatRoomByName. cbn.
  rewrite find_snoc_miss; [reflexivity|].
  apply bool_decide_eq_false_2. cbn. congruence.
Qed.

(** A second start-up on the sample accounts creates nothing more. *)
Lemma rooms_seeded_once :
  initialize_rooms (initialize_rooms sample_accounts) = initialize_rooms sample_accounts.
Proof.
  eapply (initialize_rooms_idempotent Accounts_created_is_found Accounts_created_keeps_others
            sample_accounts).
  - reflexivity.
  - reflexivity.
Defined.

Example sample_accounts_seeded :
  room_name <$> acc_rooms (initialize_rooms sample_accounts) = [main_room_name; test_room_name]
  /\ room_name <$> acc_rooms (initialize_rooms (initialize_rooms sample_accounts))
     = [main_room_name; test_room_name].
Proof. split; reflexivity. Qed.

(** After the start-up on the sample accounts both rooms are found. *)
Lemma rooms_both_created :
  (exists r, getChatRoomByName main_room_name (initialize_rooms sample_accounts) = Ok (Some r))
  /\ (exists r, getChatRoomByName test_room_name (initialize_rooms sample_accounts)
                = Ok (Some r)).
Proof.
  eapply (initialize_rooms_creates_both Accounts_created_is_found Accounts_created_keeps_others
            sample_accounts).
  - reflexivity.
  - eexists. reflexivity.
Defined.

(** With the first step filled in, the form is on step 2 and valid. *)
Lemma filled_form_reaches_step2 :
  account_valid (reg_formData (ui_run first_step_filled Registration_initial)).
Proof. apply step2_has_valid_account. reflexivity. Defined.

(** The user name ["jan"] is taken. *)
Lemma taken_username_refused :
  post_register (registration_of "jan")
    {| srv_storage := sample_accounts; srv_session := None |}
  = (api_error 400 "Username already exists",
     {| srv_storage := sample_accounts; srv_session := None |}).
Proof.
  destruct (register_refusals_write_nothing (registration_of "jan")
              {| srv_storage := sample_accounts; srv_session := None |}
              (registration_of "jan")) as (Htaken & _).
  - reflexivity.
  - apply Htaken. eexists. vm_compute. reflexivity.
Defined.

(** With the invite codes locked, ["eva"] is created and the answer is
    500. *)
Lemma locked_invites_leave_user :
  post_register (registration_of "eva")
    {| srv_storage := locked_accounts; srv_session := None |}
  = (api_error 500 "Registration failed",
     {| srv_storage := {| acc_users := <[3 := eva]> (acc_users locked_accounts);
                          acc_characters := acc_characters locked_accounts;
                          acc_codes := acc_codes locked_accounts;
                          acc_rooms := acc_rooms locked_accounts;
                          acc_codes_locked := true |};
        srv_session := None |}).
Proof.
  apply (register_keeps_user_when_invite_fails (registration_of "eva")
           {| srv_storage := locked_accounts; srv_session := None |}
           (registration_of "eva")
           {| ic_code := JStr (lit "WELCOME2024"); ic_isUsed := false |}
           (lit "hash:secret1") eva
           {| acc_users := <[3 := eva]> (acc_users locked_accounts);
              acc_characters := acc_characters locked_accounts;
              acc_codes := acc_codes locked_accounts;
              acc_rooms := acc_rooms locked_accounts;
              acc_codes_locked := true |}
           PersistenceError); reflexivity.
Defined.
